(** * ytdown: job registry, rate limiter, progress bridge and expiry timers

    A shallow embedding of [app.py] and of its HTTPS variant
    [app-https-requires-certbot.py].  Every [with LOCK:] block of the source
    is one atomic function on the shared state; the two dictionaries
    [DOWNLOADS] and [IP_LIMITS] are finite maps keyed by strings. *)

From stdpp Require Import base gmap strings list fin_maps.
From Stdlib Require Import ZArith NArith Ascii.
From Stdlib Require Import Floats.SpecFloat.

Local Open Scope string_scope.
Local Open Scope Z_scope.
Local Open Scope list_scope.

(** ** Configuration ([app.py], lines 15-25) *)

Definition DOWNLOAD_DIR : string := "downloads".
Definition MAX_PARALLEL_DOWNLOADS : Z := 4.
Definition DEFAULT_AUDIO_BITRATE : string := "192".
Definition TOKEN_EXPIRE_SECONDS : Z := 300.
Definition FILE_DELETE_SECONDS : Z := 360.
Definition MAX_DOWNLOADS_PER_DAY : Z := 10.

(** ** Rate limiter *)

(** One value of [IP_LIMITS]: the dictionary [{"date": ..., "count": ...}].
    Such a dictionary has two keys, so it is always truthy and
    [not entry] holds exactly when [IP_LIMITS.get(ip)] is [None]. *)
Record entry : Type := Entry { date : string; count : Z }.

Global Instance entry_eq_dec : EqDecision entry.
Proof. solve_decision. Defined.

(** [check_ip_limit(ip)].  The result of [today()] is the argument [today]:
    both reads of the clock happen inside one critical section.  The
    function returns the admission decision and the new [IP_LIMITS]. *)
Definition check_ip_limit (ip today : string) (limits : gmap string entry)
  : bool * gmap string entry :=
  match limits !! ip with
  | None => (true, <[ip := Entry today 1]> limits)
  | Some e =>
      if negb (bool_decide (date e = today))
      then (true, <[ip := Entry today 1]> limits)
      else if MAX_DOWNLOADS_PER_DAY <=? count e
      then (false, limits)
      else (true, <[ip := Entry (date e) (count e + 1)]> limits)
  end.

(** Successive calls on one day, each by the client named in [callers]
    (any clients, in any order): the decisions given to client [ip], oldest
    first, and the final table. *)
Fixpoint submissions (ip : string) (callers : list string) (today : string)
    (limits : gmap string entry) : list bool * gmap string entry :=
  match callers with
  | [] => ([], limits)
  | caller :: callers' =>
      let '(ok, limits') := check_ip_limit caller today limits in
      let '(oks, limits'') := submissions ip callers' today limits' in
      (if bool_decide (caller = ip) then ok :: oks else oks, limits'')
  end.

(** How many of the calls are made by [ip]. *)
Fixpoint calls_of (ip : string) (callers : list string) : nat :=
  match callers with
  | [] => O
  | caller :: callers' =>
      ((if bool_decide (caller = ip) then 1 else 0) + calls_of ip callers')%nat
  end.

(** Number of admitted submissions in a list of decisions. *)
Fixpoint count_admitted (oks : list bool) : nat :=
  match oks with
  | [] => O
  | ok :: oks' => ((if ok then 1 else 0) + count_admitted oks')%nat
  end.

(** The decisions for [n] calls of a client whose quota has room for
    [room] more. *)
Definition first_admitted (n room : nat) : list bool :=
  replicate (Nat.min n room) true ++ replicate (n - room) false.

(** The client has no entry for [today] yet. *)
Definition fresh_day (ip today : string) (limits : gmap string entry) : Prop :=
  match limits !! ip with
  | None => True
  | Some e => date e ≠ today
  end.

(** ** Python values

    A Python [float] is an IEEE 754 binary64 number: [spec_float] with the
    operations of the specification at precision 53.  [int / int] is the
    correctly rounded quotient, and [round(x, ndigits)] rounds the exact
    value of [x] half-to-even at [ndigits] decimals and returns the nearest
    float.  Where a result would leave the range of a float Python raises
    [OverflowError] and the functions below return an infinity; byte counts
    and percentages stay far from there. *)

Definition pyfloat : Type := spec_float.
Definition prec : Z := 53.
Definition emax : Z := 1024.

Definition float_of_Z (z : Z) : pyfloat := binary_normalize prec emax z 0 false.

(** An integer as a finite value that has not been rounded yet. *)
Definition raw (z : Z) : pyfloat :=
  match z with
  | Z0 => S754_zero false
  | Zpos p => S754_finite false p 0
  | Zneg p => S754_finite true p 0
  end.

Definition fmul : pyfloat → pyfloat → pyfloat := SFmul prec emax.
Definition fdiv : pyfloat → pyfloat → pyfloat := SFdiv prec emax.
Definition fsub : pyfloat → pyfloat → pyfloat := SFsub prec emax.
Definition int_truediv (a b : Z) : pyfloat := SFdiv prec emax (raw a) (raw b).

Definition half_even (num den : Z) : Z :=
  let q := num / den in
  let r := num mod den in
  match 2 * r ?= den with
  | Lt => q
  | Gt => q + 1
  | Eq => if Z.even q then q else q + 1
  end.

Definition py_round (x : pyfloat) (ndigits : Z) : pyfloat :=
  match x with
  | S754_finite s m e =>
      let up := 10 ^ Z.max ndigits 0 in
      let down := 10 ^ Z.max (- ndigits) 0 in
      let n := half_even (Zpos m * 2 ^ Z.max e 0 * up)
                         (2 ^ Z.max (- e) 0 * down) in
      match n with
      | Z0 => S754_zero s
      | _ => SFdiv prec emax (raw (if s then - (n * down) else n * down)) (raw up)
      end
  | _ => x
  end.

Inductive pynum : Type :=
  | PyInt (z : Z)
  | PyFloat (x : pyfloat).

Definition to_float (n : pynum) : pyfloat :=
  match n with PyInt z => float_of_Z z | PyFloat x => x end.

(** [a / b] for a divisor that is not zero. *)
Definition truediv (a b : pynum) : pyfloat :=
  match a, b with
  | PyInt x, PyInt y => int_truediv x y
  | _, _ => fdiv (to_float a) (to_float b)
  end.

(** Truth value of a number, and of a value that may be [None]. *)
Definition truthy_num (n : pynum) : bool :=
  match n with
  | PyInt z => negb (z =? 0)
  | PyFloat (S754_zero _) => false
  | PyFloat _ => true
  end.

Definition truthy (v : option pynum) : bool :=
  match v with None => false | Some n => truthy_num n end.

(** [a or b]. *)
Definition py_or (a b : option pynum) : option pynum :=
  if truthy a then a else b.

(** Truth value of a string that may be [None]: [None] and the empty string
    are false. *)
Definition nonempty (s : option string) : option string :=
  match s with
  | Some "" => None
  | _ => s
  end.

(** [s.lower()] on the ASCII letters, which are the only characters whose
    lower case occurs in ["mp4"] or ["webm"]. *)
Definition lower_ascii (c : ascii) : ascii :=
  let n := N_of_ascii c in
  if ((65 <=? n) && (n <=? 90))%N then ascii_of_N (n + 32) else c.

Fixpoint lower (s : string) : string :=
  match s with
  | EmptyString => EmptyString
  | String c s' => String (lower_ascii c) (lower s')
  end.

(** [uuid.uuid4().hex]: sixteen random bytes read as a 128-bit integer, the
    variant and version bits of a version 4 UUID forced, printed as 32
    lower-case hexadecimal digits. *)
Definition hex_digit (n : N) : ascii :=
  if (n <? 10)%N then ascii_of_N (48 + n) else ascii_of_N (87 + n).

Fixpoint hexdigits (k : nat) (n : N) : string :=
  match k with
  | O => EmptyString
  | S k' => String (hex_digit (N.shiftr n (4 * N.of_nat k') mod 16)%N)
                   (hexdigits k' n)
  end.

Definition uuid4_int (urandom : N) : N :=
  let i := (urandom mod 2 ^ 128)%N in
  let i := N.ldiff i (N.shiftl 0xc000 48) in
  let i := N.lor i (N.shiftl 0x8000 48) in
  let i := N.ldiff i (N.shiftl 0xf000 64) in
  N.lor i (N.shiftl 4 76).

Definition uuid4_hex (urandom : N) : string := hexdigits 32 (uuid4_int urandom).

(** [os.path.join(a, b)] on POSIX for a directory [a] that is not empty and
    does not end in a slash: an absolute [b] replaces [a]. *)
Definition path_join (a b : string) : string :=
  match b with
  | String "/" _ => b
  | _ => a +:+ "/" +:+ b
  end.

(** ** Job records *)

(** The values of the ["status"] key. *)
Inductive status : Type := Queued | Downloading | Processing | Done | Error.

Global Instance status_eq_dec : EqDecision status.
Proof. solve_decision. Defined.

Definition status_str (s : status) : string :=
  match s with
  | Queued => "queued"
  | Downloading => "downloading"
  | Processing => "processing"
  | Done => "done"
  | Error => "error"
  end.

(** Position in the order queued, downloading, processing, terminal. *)
Definition rank (s : status) : Z :=
  match s with
  | Queued => 0
  | Downloading => 1
  | Processing => 2
  | Done => 3
  | Error => 3
  end.

(** One value of [DOWNLOADS]; a field is a key of the dictionary built by
    [watch].  [None] is Python's [None]. *)
Record info : Type := Info {
  info_token : string;
  info_ip : string;
  info_video_id : string;
  info_format : string;
  info_status : status;
  info_percent : pynum;
  info_speed : option pynum;
  info_eta : option pynum;
  info_downloaded_bytes : pynum;
  info_total_bytes : option pynum;
  info_started : pyfloat;
  info_file : option string;
  info_error : option string
}.

(** The dictionary [d] handed to a progress hook.  [None] stands for a
    missing key as well as for the value [None]: [d.get] does not tell them
    apart, and the engine gives ["downloaded_bytes"] a number whenever the
    key is there. *)
Record event : Type := Event {
  d_status : string;
  d_downloaded_bytes : option pynum;
  d_total_bytes : option pynum;
  d_total_bytes_estimate : option pynum;
  d_speed : option pynum;
  d_eta : option pynum
}.

(** ** Progress bridge ([progress_hook], the body under the lock) *)

(** [round((downloaded / total) * 100, 2) if total else 0]. *)
Definition percent_of (downloaded : pynum) (total : option pynum) : pynum :=
  match total with
  | Some t =>
      if truthy_num t
      then PyFloat (py_round (fmul (truediv downloaded t) (float_of_Z 100)) 2)
      else PyInt 0
  | None => PyInt 0
  end.

(** What the hook writes into a record that is still registered. *)
Definition hook_update (d : event) (i : info) : info :=
  if bool_decide (d_status d = "downloading") then
    let total := py_or (d_total_bytes d) (d_total_bytes_estimate d) in
    let downloaded := default (PyInt 0) (d_downloaded_bytes d) in
    Info (info_token i) (info_ip i) (info_video_id i) (info_format i)
         Downloading (percent_of downloaded total) (d_speed d) (d_eta d)
         downloaded total (info_started i) (info_file i) (info_error i)
  else if bool_decide (d_status d = "finished") then
    Info (info_token i) (info_ip i) (info_video_id i) (info_format i)
         Processing (PyFloat (float_of_Z 100)) (info_speed i) (info_eta i)
         (info_downloaded_bytes i) (info_total_bytes i) (info_started i)
         (info_file i) (info_error i)
  else i.

Definition progress_hook (token : string) (d : event)
    (downloads : gmap string info) : gmap string info :=
  match downloads !! token with
  | None => downloads
  | Some i => <[token := hook_update d i]> downloads
  end.

(** ** Shared state and timers *)

(** What a timer thread does when its sleep is over. *)
Inductive timer_action : Type :=
  | ExpireToken (token : string)     (* [DOWNLOADS.pop(token, None)] *)
  | DeleteFile (path : string).      (* [os.remove(path)] if it exists *)

Global Instance timer_action_eq_dec : EqDecision timer_action.
Proof. solve_decision. Defined.

(** A job handed to the executor by [executor.submit]. *)
Record job : Type := Job {
  job_token : string;
  job_video_id : string;
  job_res : option string;
  job_audio : string;
  job_fmt : string;
  job_ip : string
}.

(** The process state: the two global dictionaries, the timer threads that
    are asleep (each with the instant at which it wakes up), the jobs given
    to the executor, and the files the timers can remove. *)
Record state : Type := State {
  DOWNLOADS : gmap string info;
  IP_LIMITS : gmap string entry;
  TIMERS : list (Z * timer_action);
  SUBMITTED : list job;
  FILES : gset string
}.

Definition set_downloads (f : gmap string info → gmap string info)
    (st : state) : state :=
  State (f (DOWNLOADS st)) (IP_LIMITS st) (TIMERS st) (SUBMITTED st) (FILES st).

Definition set_limits (l : gmap string entry) (st : state) : state :=
  State (DOWNLOADS st) l (TIMERS st) (SUBMITTED st) (FILES st).

(** [schedule_token_expire(token, delay)] and [schedule_delete(path, delay)]
    called at instant [clock]. *)
Definition schedule_token_expire (clock : Z) (token : string) (delay : Z)
    (st : state) : state :=
  State (DOWNLOADS st) (IP_LIMITS st)
        (TIMERS st ++ [(clock + delay, ExpireToken token)])
        (SUBMITTED st) (FILES st).

Definition schedule_delete (clock : Z) (path : string) (delay : Z)
    (st : state) : state :=
  State (DOWNLOADS st) (IP_LIMITS st)
        (TIMERS st ++ [(clock + delay, DeleteFile path)])
        (SUBMITTED st) (FILES st).

(** The body of a timer thread after its sleep. *)
Definition fire (a : timer_action) (st : state) : state :=
  match a with
  | ExpireToken token => set_downloads (delete token) st
  | DeleteFile path =>
      State (DOWNLOADS st) (IP_LIMITS st) (TIMERS st) (SUBMITTED st)
            (FILES st ∖ {[path]})
  end.

(** The state at instant [t]: every timer that is due has run. *)
Fixpoint fire_due (t : Z) (timers : list (Z * timer_action)) (st : state)
  : state :=
  match timers with
  | [] => st
  | (due, a) :: rest =>
      if due <=? t then fire_due t rest (fire a st) else fire_due t rest st
  end.

Definition advance (t : Z) (st : state) : state :=
  let st' := fire_due t (TIMERS st) st in
  State (DOWNLOADS st') (IP_LIMITS st')
        (filter (λ da, t < da.1) (TIMERS st)) (SUBMITTED st') (FILES st').

(** ** Routes *)

Definition BadRequest : Z := 400.
Definition Forbidden : Z := 403.
Definition NotFound : Z := 404.
Definition Conflict : Z := 409.
Definition Gone : Z := 410.
Definition RateLimited : Z := 429.
Definition ServerError : Z := 500.

(** The JSON object returned by [progress]. *)
Record progress_body : Type := ProgressBody {
  body_token : string;
  body_status : string;
  body_percent : pynum;
  body_speed_bps : option pynum;
  body_eta_seconds : option pynum;
  body_downloaded_bytes : pynum;
  body_total_bytes : option pynum;
  body_format : string;
  body_elapsed : pyfloat;
  body_ready : bool;
  body_error : option string
}.

Inductive response : Type :=
  | abort (code : Z)
  | error_json (code : Z) (msg : string)    (* [jsonify({"error": msg}), code] *)
  | queued_json (token : string)            (* the answer of [watch] *)
  | progress_json (body : progress_body)
  | send_file (path : option string).

Definition http_status (r : response) : Z :=
  match r with
  | abort code => code
  | error_json code _ => code
  | _ => 200
  end.

(** The query string and the peer address of a request. *)
Record request : Type := Request {
  arg_v : option string;
  arg_not_json : bool;
  arg_res : option string;
  arg_audio : option string;
  arg_format : option string;
  arg_token : option string;
  remote_addr : string
}.

(** What a request reads from outside: the UTC date, [time.time()] and the
    sixteen random bytes of [uuid4]. *)
Record environment : Type := Environment {
  env_today : string;
  env_now : pyfloat;
  env_urandom : N
}.

(** The dictionary stored by [watch]. *)
Definition new_info (token ip video_id fmt : string) (now : pyfloat) : info :=
  Info token ip video_id fmt Queued (PyInt 0) None None (PyInt 0) None now
       None None.

(** [watch] up to the end of the request in JSON mode, and up to
    [executor.submit] in not-json mode: [Responded r] is the response,
    [Waiting token] means that the request goes on to poll the registry. *)
Inductive outcome : Type :=
  | Responded (r : response)
  | Waiting (token : string).

Definition reject (not_json : bool) (code : Z) (msg : string) : outcome :=
  Responded (if not_json then abort code else error_json code msg).

Definition watch (rq : request) (env : environment) (st : state)
  : outcome * state :=
  let not_json := arg_not_json rq in
  match nonempty (arg_v rq) with
  | None => (reject not_json 400 "Missing v", st)
  | Some video_id =>
      let ip := remote_addr rq in
      let '(ok, limits) := check_ip_limit ip (env_today env) (IP_LIMITS st) in
      let st := set_limits limits st in
      if negb ok then (reject not_json 429 "Daily limit reached", st)
      else
        let res := arg_res rq in
        let audio := default DEFAULT_AUDIO_BITRATE (arg_audio rq) in
        let fmt := lower (default "mp4" (arg_format rq)) in
        let token := default (uuid4_hex (env_urandom env))
                             (nonempty (arg_token rq)) in
        if negb (bool_decide (fmt = "mp4") || bool_decide (fmt = "webm"))
        then (reject not_json 400 "Invalid format", st)
        else
          match DOWNLOADS st !! token with
          | Some _ => (reject not_json 409 "Token in use", st)
          | None =>
              let st :=
                State (<[token := new_info token ip video_id fmt (env_now env)]>
                         (DOWNLOADS st))
                      (IP_LIMITS st) (TIMERS st)
                      (SUBMITTED st ++ [Job token video_id res audio fmt ip])
                      (FILES st) in
              (if not_json then Waiting token
               else Responded (queued_json token), st)
          end
  end.

(** One turn of the polling loop of [watch] in not-json mode; [None] means
    sleep and poll again. *)
Definition poll (token : string) (downloads : gmap string info)
  : option response :=
  match downloads !! token with
  | None => Some (abort 410)
  | Some i =>
      match info_status i, nonempty (info_file i) with
      | Done, Some path => Some (send_file (Some path))
      | Error, _ => Some (abort 500)
      | _, _ => None
      end
  end.

Definition progress (token : option string) (ip : string) (now : pyfloat)
    (downloads : gmap string info) : response :=
  match nonempty token with
  | None => error_json 400 "Missing token"
  | Some token =>
      match downloads !! token with
      | None => error_json 404 "Invalid or expired token"
      | Some i =>
          if negb (bool_decide (info_ip i = ip))
          then error_json 403 "Forbidden"
          else progress_json
                 (ProgressBody token (status_str (info_status i))
                    (info_percent i) (info_speed i) (info_eta i)
                    (info_downloaded_bytes i) (info_total_bytes i)
                    (info_format i)
                    (py_round (fsub now (info_started i)) 2)
                    (bool_decide (info_status i = Done))
                    (info_error i))
      end
  end.

Definition download (token : option string) (ip : string)
    (downloads : gmap string info) : response :=
  match nonempty token with
  | None => error_json 400 "Missing token"
  | Some token =>
      match downloads !! token with
      | None => error_json 409 "Not ready or expired"
      | Some i =>
          if negb (bool_decide (info_status i = Done))
          then error_json 409 "Not ready or expired"
          else if negb (bool_decide (info_ip i = ip))
          then error_json 403 "Forbidden"
          else send_file (info_file i)
      end
  end.

(** The status code of an outcome that is a response. *)
Definition outcome_status (o : outcome) : option Z :=
  match o with
  | Responded r => Some (http_status r)
  | Waiting _ => None
  end.

(** [rq] with another [token] argument. *)
Definition with_token (t : option string) (rq : request) : request :=
  Request (arg_v rq) (arg_not_json rq) (arg_res rq) (arg_audio rq)
          (arg_format rq) t (remote_addr rq).

(** ** Download worker *)

(** How [ydl.download([url])] ends: it returns, or it raises an exception
    [e] whose [str(e)] is the argument. *)
Inductive engine_result : Type :=
  | Completed
  | Raised (e : string).

(** What the engine does as far as the worker can see: the progress events
    it emits, in order, and how it ends. *)
Record engine_run : Type := EngineRun {
  run_events : list event;
  run_result : engine_result
}.

(** [build_format(res, audio, fmt)]: the format selector given to the
    engine. *)
Definition build_format (res : option string) (audio fmt : string) : string :=
  let video_ext := if bool_decide (fmt = "mp4") then "mp4" else "webm" in
  let audio_ext := if bool_decide (fmt = "mp4") then "m4a" else "webm" in
  let video := "bestvideo[ext=" +:+ video_ext +:+ "]" in
  let video := match nonempty res with
               | Some r => video +:+ "[height<=" +:+ r +:+ "]"
               | None => video
               end in
  let audio_part :=
    "bestaudio[ext=" +:+ audio_ext +:+ "][abr<=" +:+ audio +:+ "]" in
  video +:+ "+" +:+ audio_part +:+ "/best".

Definition output_path (token fmt : string) : string :=
  path_join DOWNLOAD_DIR (token +:+ "." +:+ fmt).

(** [if token in DOWNLOADS: DOWNLOADS[token]["status"] = "done"; ...]. *)
Definition mark_done (token path : string) (downloads : gmap string info)
  : gmap string info :=
  match downloads !! token with
  | None => downloads
  | Some i =>
      <[token := Info (info_token i) (info_ip i) (info_video_id i)
                   (info_format i) Done (info_percent i) (info_speed i)
                   (info_eta i) (info_downloaded_bytes i) (info_total_bytes i)
                   (info_started i) (Some path) (info_error i)]> downloads
  end.

(** [if token in DOWNLOADS: DOWNLOADS[token]["status"] = "error"; ...]. *)
Definition mark_error (token e : string) (downloads : gmap string info)
  : gmap string info :=
  match downloads !! token with
  | None => downloads
  | Some i =>
      <[token := Info (info_token i) (info_ip i) (info_video_id i)
                   (info_format i) Error (info_percent i) (info_speed i)
                   (info_eta i) (info_downloaded_bytes i) (info_total_bytes i)
                   (info_started i) (info_file i) (Some e)]> downloads
  end.

(** The end of [download_worker], reached at instant [clock]: the [try]
    body after the engine has returned, or the [except] branch. *)
Definition finish (token fmt : string) (clock : Z) (r : engine_result)
    (st : state) : state :=
  match r with
  | Completed =>
      let path := output_path token fmt in
      let st := set_downloads (mark_done token path) st in
      let st := schedule_token_expire clock token TOKEN_EXPIRE_SECONDS st in
      schedule_delete clock path FILE_DELETE_SECONDS st
  | Raised e => set_downloads (mark_error token e) st
  end.

(** The critical sections of one worker, in the order it runs them. *)
Inductive step : Type :=
  | Hook (d : event)
  | Finish (r : engine_result).

Definition worker_steps (run : engine_run) : list step :=
  map Hook (run_events run) ++ [Finish (run_result run)].

Definition worker_step (token fmt : string) (clock : Z) (s : step)
    (st : state) : state :=
  match s with
  | Hook d => set_downloads (progress_hook token d) st
  | Finish r => finish token fmt clock r st
  end.

(** The states an observer can see while the steps run: one after each. *)
Fixpoint states_after (token fmt : string) (clock : Z) (steps : list step)
    (st : state) : list state :=
  match steps with
  | [] => []
  | s :: steps' =>
      let st' := worker_step token fmt clock s st in
      st' :: states_after token fmt clock steps' st'
  end.

(** [download_worker(token, video_id, res, audio, fmt, ip)] for an engine
    that behaves as [run] and ends at instant [clock]. *)
Definition download_worker (j : job) (clock : Z) (run : engine_run)
    (st : state) : state :=
  foldl (λ st s, worker_step (job_token j) (job_fmt j) clock s st) st
        (worker_steps run).

(** The status values an observer reads for [token] in a list of states; a
    state where the token is gone shows none. *)
Definition status_in (token : string) (st : state) : option status :=
  info_status <$> DOWNLOADS st !! token.

Definition observed (token : string) (sts : list state) : list status :=
  omap (status_in token) sts.

Fixpoint nondecreasing (l : list status) : bool :=
  match l with
  | a :: ((b :: _) as l') => (rank a <=? rank b) && nondecreasing l'
  | _ => true
  end.

Definition not_downloading (d : event) : bool :=
  negb (bool_decide (d_status d = "downloading")).

(** No ["downloading"] event comes after a ["finished"] event. *)
Fixpoint phase_ordered (evs : list event) : bool :=
  match evs with
  | [] => true
  | d :: evs' =>
      (if bool_decide (d_status d = "finished")
       then forallb not_downloading evs' else true)
      && phase_ordered evs'
  end.

(** A timer for [a] that is due at instant [t] is among [timers]. *)
Definition due_by (t : Z) (a : timer_action) (timers : list (Z * timer_action))
  : bool :=
  existsb (λ da, (da.1 <=? t) && bool_decide (da.2 = a)) timers.

(** The state after the progress hooks of a run. *)
Definition after_hooks (token : string) (evs : list event) (st : state)
  : state :=
  foldl (λ st d, set_downloads (progress_hook token d) st) st evs.

(** The status a hook leaves in a record whose status was [s], and the
    status the end of the worker writes. *)
Definition hook_status (d : event) (s : status) : status :=
  if bool_decide (d_status d = "downloading") then Downloading
  else if bool_decide (d_status d = "finished") then Processing
  else s.

Definition final_status (r : engine_result) : status :=
  match r with Completed => Done | Raised _ => Error end.

(** The status after each step of a worker whose record starts at [s]. *)
Fixpoint status_trace (evs : list event) (r : engine_result) (s : status)
  : list status :=
  match evs with
  | [] => [final_status r]
  | d :: evs' => hook_status d s :: status_trace evs' r (hook_status d s)
  end.

(** ** The HTTPS variant ([app-https-requires-certbot.py])

    The variant has its own delays and its own end of [download_worker];
    [check_ip_limit], [progress_hook], [progress] and the decisions of
    [watch] and [download] are those above (the variant answers with
    [abort(code)] where [app.py] answers with a JSON error of the same
    code). *)
Module Certbot.

Definition TOKEN_EXPIRE_SECONDS : Z := 5.
Definition FILE_DELETE_SECONDS : Z := 10.

(** How the worker ends: it returns, or an exception leaves it. *)
Inductive worker_exit : Type :=
  | Returned
  | Uncaught (exc : string).

(** The writes are not guarded by [if token in DOWNLOADS]: for a token
    that is gone, [DOWNLOADS[token]] raises [KeyError]; raised in the
    [try] body it is caught by [except Exception], whose own
    [DOWNLOADS[token]] raises it again. *)
Definition finish (token fmt : string) (clock : Z) (r : engine_result)
    (st : state) : worker_exit * state :=
  match DOWNLOADS st !! token with
  | None => (Uncaught "KeyError", st)
  | Some _ =>
      match r with
      | Completed =>
          let path := output_path token fmt in
          let st := set_downloads (mark_done token path) st in
          let st := schedule_delete clock path FILE_DELETE_SECONDS st in
          (Returned, schedule_token_expire clock token TOKEN_EXPIRE_SECONDS st)
      | Raised e => (Returned, set_downloads (mark_error token e) st)
      end
  end.

Definition download_worker (j : job) (clock : Z) (run : engine_run)
    (st : state) : worker_exit * state :=
  finish (job_token j) (job_fmt j) clock (run_result run)
    (foldl (λ st d, set_downloads (progress_hook (job_token j) d) st) st
           (run_events run)).

End Certbot.

(** ** The routes of the HTTPS variant

    [watch] and [download] answer every rejection with [abort(code)];
    [progress] keeps its JSON errors but its body has no ["error"] key; the
    polling loop sends [info["file"]] as soon as the status is done. *)
Module CertbotRoutes.

Record progress_body : Type := ProgressBody {
  body_token : string;
  body_status : string;
  body_percent : pynum;
  body_speed_bps : option pynum;
  body_eta_seconds : option pynum;
  body_downloaded_bytes : pynum;
  body_total_bytes : option pynum;
  body_format : string;
  body_elapsed : pyfloat;
  body_ready : bool
}.

Inductive response : Type :=
  | abort (code : Z)
  | error_json (code : Z) (msg : string)
  | queued_json (token : string)
  | progress_json (body : progress_body)
  | send_file (path : option string).

Definition http_status (r : response) : Z :=
  match r with
  | abort code => code
  | error_json code _ => code
  | _ => 200
  end.

Inductive outcome : Type :=
  | Responded (r : response)
  | Waiting (token : string).

Definition outcome_status (o : outcome) : option Z :=
  match o with
  | Responded r => Some (http_status r)
  | Waiting _ => None
  end.

Definition accepted_token (o : outcome) : option string :=
  match o with
  | Responded (queued_json token) => Some token
  | Waiting token => Some token
  | Responded _ => None
  end.

Definition watch (rq : request) (env : environment) (st : state)
  : outcome * state :=
  match nonempty (arg_v rq) with
  | None => (Responded (abort 400), st)
  | Some video_id =>
      let ip := remote_addr rq in
      let '(ok, limits) := check_ip_limit ip (env_today env) (IP_LIMITS st) in
      let st := set_limits limits st in
      if negb ok then (Responded (abort 429), st)
      else
        let res := arg_res rq in
        let audio := default DEFAULT_AUDIO_BITRATE (arg_audio rq) in
        let fmt := lower (default "mp4" (arg_format rq)) in
        let token := default (uuid4_hex (env_urandom env))
                             (nonempty (arg_token rq)) in
        if negb (bool_decide (fmt = "mp4") || bool_decide (fmt = "webm"))
        then (Responded (abort 400), st)
        else
          match DOWNLOADS st !! token with
          | Some _ => (Responded (abort 409), st)
          | None =>
              let st :=
                State (<[token := new_info token ip video_id fmt (env_now env)]>
                         (DOWNLOADS st))
                      (IP_LIMITS st) (TIMERS st)
                      (SUBMITTED st ++ [Job token video_id res audio fmt ip])
                      (FILES st) in
              (if arg_not_json rq then Waiting token
               else Responded (queued_json token), st)
          end
  end.

Definition poll (token : string) (downloads : gmap string info)
  : option response :=
  match downloads !! token with
  | None => Some (abort 410)
  | Some i =>
      match info_status i with
      | Done => Some (send_file (info_file i))
      | Error => Some (abort 500)
      | _ => None
      end
  end.

Definition progress (token : option string) (ip : string) (now : pyfloat)
    (downloads : gmap string info) : response :=
  match nonempty token with
  | None => error_json 400 "Missing token"
  | Some token =>
      match downloads !! token with
      | None => error_json 404 "Invalid or expired token"
      | Some i =>
          if negb (bool_decide (info_ip i = ip))
          then error_json 403 "Forbidden"
          else progress_json
                 (ProgressBody token (status_str (info_status i))
                    (info_percent i) (info_speed i) (info_eta i)
                    (info_downloaded_bytes i) (info_total_bytes i)
                    (info_format i)
                    (py_round (fsub now (info_started i)) 2)
                    (bool_decide (info_status i = Done)))
      end
  end.

Definition download (token : option string) (ip : string)
    (downloads : gmap string info) : response :=
  match nonempty token with
  | None => abort 400
  | Some token =>
      match downloads !! token with
      | None => abort 409
      | Some i =>
          if negb (bool_decide (info_status i = Done)) then abort 409
          else if negb (bool_decide (info_ip i = ip)) then abort 403
          else send_file (info_file i)
      end
  end.

End CertbotRoutes.

(** What the two files' answers have in common: the status code, the
    token of an accepted submission, the file sent, and the body of
    [progress] apart from its ["error"] key. *)
Definition same_answer (r : response) (r' : CertbotRoutes.response) : Prop :=
  http_status r = CertbotRoutes.http_status r'
  ∧ match r, r' with
    | queued_json token, CertbotRoutes.queued_json token' => token = token'
    | send_file path, CertbotRoutes.send_file path' => path = path'
    | progress_json b, CertbotRoutes.progress_json b' =>
        b' = CertbotRoutes.ProgressBody (body_token b) (body_status b)
               (body_percent b) (body_speed_bps b) (body_eta_seconds b)
               (body_downloaded_bytes b) (body_total_bytes b) (body_format b)
               (body_elapsed b) (body_ready b)
    | abort _, CertbotRoutes.abort _ => True
    | error_json _ _, CertbotRoutes.abort _ => True
    | error_json _ msg, CertbotRoutes.error_json _ msg' => msg = msg'
    | _, _ => False
    end.

Definition same_outcome (o : outcome) (o' : CertbotRoutes.outcome) : Prop :=
  match o, o' with
  | Responded r, CertbotRoutes.Responded r' => same_answer r r'
  | Waiting token, CertbotRoutes.Waiting token' => token = token'
  | _, _ => False
  end.

(** ** Certificate setup ([ensure_certificates], HTTPS variant)

    The file system is a map from paths to entries, as far as
    [os.path.exists] and [os.symlink] can tell: an entry is a symbolic link
    or something else (a file, a directory).  The directory [CERT_DIR] is
    there and writable, [os.makedirs] having made it when the module was
    loaded. *)
Inductive node : Type :=
  | RegularFile
  | Symlink (target : string).

Abbreviation filesystem := (gmap string node) (only parsing).

(** [os.path.exists(path)] follows symbolic links and is [False] for a
    link that leads nowhere or too far; the kernel follows at most
    [MAXSYMLINKS] of them. *)
Fixpoint resolves (fuel : nat) (fs : filesystem) (path : string) : bool :=
  match fs !! path with
  | None => false
  | Some RegularFile => true
  | Some (Symlink target) =>
      match fuel with
      | O => false
      | S fuel' => resolves fuel' fs target
      end
  end.

Definition MAXSYMLINKS : nat := 40.

Definition os_path_exists (fs : filesystem) (path : string) : bool :=
  resolves MAXSYMLINKS fs path.

(** [os.symlink(src, dst)]: [None] is [FileExistsError], raised for any
    entry at [dst], a dangling link included. *)
Definition os_symlink (src dst : string) (fs : filesystem)
  : option filesystem :=
  match fs !! dst with
  | Some _ => None
  | None => Some (<[dst := Symlink src]> fs)
  end.

Fixpoint ends_with_slash (s : string) : bool :=
  match s with
  | EmptyString => false
  | String c EmptyString => bool_decide (c = "/"%char)
  | String _ s' => ends_with_slash s'
  end.

(** [os.path.join(a, b)] of [posixpath]. *)
Definition os_path_join (a b : string) : string :=
  match b with
  | String "/" _ => b
  | _ =>
      if bool_decide (a = EmptyString) || ends_with_slash a then a +:+ b
      else a +:+ "/" +:+ b
  end.

Definition DOMAIN : string := "example.com".
Definition CERT_DIR : string := "certs/" +:+ DOMAIN.
Definition CERT_FILE : string := os_path_join CERT_DIR "fullchain.pem".
Definition KEY_FILE : string := os_path_join CERT_DIR "privkey.pem".

(** What the function meets outside the program.  [subprocess_run args fs]
    is [None] when the command is not found ([FileNotFoundError]), and
    otherwise the return code, the captured output and the file system the
    process leaves.  [input_line prompt fs] is [None] at the end of the
    standard input ([EOFError]), and otherwise the file system at the
    moment Enter is pressed. *)
Record host : Type := Host {
  subprocess_run :
    list string → filesystem → option (Z * string * string * filesystem);
  input_line : string → filesystem → option filesystem
}.

(** What the function does that can be seen from outside. *)
Inductive io : Type :=
  | Printed (line : string)
  | Ran (args : list string)
  | Prompted (prompt : string).

Inductive setup_result : Type :=
  | Returns (paths : string * string)
  | Raises (exception : string).

Record setup : Type := Setup {
  setup_result_of : setup_result;
  setup_fs : filesystem;
  setup_io : list io
}.

Definition certbot_command (domain : string) : list string :=
  ["certbot"; "certonly"; "--standalone"; "-d"; domain; "--non-interactive";
   "--agree-tos"; "-m"; "admin@" +:+ domain].

Definition live_dir (domain : string) : string :=
  "/etc/letsencrypt/live/" +:+ domain.

(** [input(prompt)] followed by [return CERT_FILE, KEY_FILE]. *)
Definition prompt_and_return (h : host) (prompt : string) (fs : filesystem)
    (out : list io) : setup :=
  match input_line h prompt fs with
  | None => Setup (Raises "EOFError") fs (out ++ [Prompted prompt])
  | Some fs' =>
      Setup (Returns (CERT_FILE, KEY_FILE)) fs' (out ++ [Prompted prompt])
  end.

Definition ensure_certificates (h : host) (domain : string) (fs : filesystem)
  : setup :=
  if os_path_exists fs CERT_FILE && os_path_exists fs KEY_FILE
  then Setup (Returns (CERT_FILE, KEY_FILE)) fs
             [Printed ("[INFO] Certificates found for " +:+ domain)]
  else
    let out :=
      [Printed ("[WARNING] Certificates not found for " +:+ domain
                +:+ ". Attempting to generate with certbot...");
       Ran (certbot_command domain)] in
    match subprocess_run h (certbot_command domain) fs with
    | None =>
        prompt_and_return h "Press Enter to continue after installing certbot..."
          fs
          (out ++ [Printed "[ERROR] Certbot not installed. Please install Certbot and rerun."])
    | Some (returncode, stdout, stderr, fs) =>
        if negb (returncode =? 0)
        then
          prompt_and_return h
            "Please fix certificates manually and press Enter to continue..."
            fs
            (out ++ [Printed "[ERROR] Certbot failed:"; Printed stdout;
                     Printed stderr])
        else
          let out :=
            out ++ [Printed "[INFO] Certbot succeeded. Certificates should be in /etc/letsencrypt/live/"] in
          match os_symlink (os_path_join (live_dir domain) "fullchain.pem")
                  CERT_FILE fs with
          | None => Setup (Raises "FileExistsError") fs out
          | Some fs =>
              match os_symlink (os_path_join (live_dir domain) "privkey.pem")
                      KEY_FILE fs with
              | None => Setup (Raises "FileExistsError") fs out
              | Some fs => Setup (Returns (CERT_FILE, KEY_FILE)) fs out
              end
          end
    end.

(** Whether the operator is asked to press Enter, and how often the
    command is run. *)
Definition is_prompt (e : io) : bool :=
  match e with Prompted _ => true | _ => false end.

Definition is_run (e : io) : bool :=
  match e with Ran _ => true | _ => false end.

(** A host on which certbot succeeds and changes nothing, and a file system
    that holds the certificate and not the key. *)
Definition host_idle : host :=
  Host (λ _ fs, Some (0, EmptyString, EmptyString, fs)) (λ _ fs, Some fs).

Definition fs_half : filesystem := {[CERT_FILE := RegularFile]}.

(** A host whose certbot writes the live files of the domain. *)
Definition host_issuing : host :=
  Host (λ _ fs,
          Some (0, EmptyString, EmptyString,
                <[os_path_join (live_dir DOMAIN) "privkey.pem" := RegularFile]>
                  (<[os_path_join (live_dir DOMAIN) "fullchain.pem"
                     := RegularFile]> fs)))
       (λ _ fs, Some fs).

(** A host without certbot, whose operator presses Enter at once. *)
Definition host_absent : host := Host (λ _ _, None) (λ _ fs, Some fs).

(** ** A concrete run, used to evaluate the model

    The process has just started; client 10.0.0.1 submits subject abc123
    with container mp4 and no token of its own. *)
Definition initial_state : state := State ∅ ∅ [] [] ∅.

Definition env_a : environment :=
  Environment "2024-01-01" (float_of_Z 1700000000) 0.

Definition request_a : request :=
  Request (Some "abc123") false None None (Some "mp4") None "10.0.0.1".

Definition token_a : string := "00000000000040008000000000000000".

Definition state_a : state := (watch request_a env_a initial_state).2.

Definition job_a : job :=
  Job token_a "abc123" None DEFAULT_AUDIO_BITRATE "mp4" "10.0.0.1".

(** A ["downloading"] event for 23 bytes of 160, and a ["finished"] event. *)
Definition event_downloading : event :=
  Event "downloading" (Some (PyInt 23)) (Some (PyInt 160)) None None None.

Definition event_finished : event :=
  Event "finished" (Some (PyInt 160)) (Some (PyInt 160)) None None None.

(** The same client asks for a container that is not offered, and then
    submits again under the token that is still registered. *)
Definition request_avi : request :=
  Request (Some "abc123") false None None (Some "avi") None "10.0.0.1".

Definition request_again : request := with_token (Some token_a) request_a.

(** A submission whose [token] argument is the empty string. *)
Definition request_empty_token : request := with_token (Some "") request_a.

(** The engine fails after one progress event. *)
Definition run_failure : engine_run :=
  EngineRun [event_downloading] (Raised "HTTP Error 403: Forbidden").

(** The engine fetches two streams, one after the other, and merges them:
    each stream ends with a ["finished"] event. *)
Definition run_two_streams : engine_run :=
  EngineRun [event_downloading; event_finished; event_downloading;
             event_finished] Completed.

(** The registry after the token of the first submission has expired. *)
Definition state_purged : state := fire (ExpireToken token_a) state_a.

(** The first submission with its output file on disk. *)
Definition state_a_file : state :=
  State (DOWNLOADS state_a) (IP_LIMITS state_a) (TIMERS state_a)
        (SUBMITTED state_a) {[output_path token_a "mp4"]}.

(** The engine fetches one stream. *)
Definition run_one_stream : engine_run :=
  EngineRun [event_downloading; event_finished] Completed.

(** ** Sequences of requests, and what the registry keeps *)

(** The token of an outcome that accepts the submission. *)
Definition accepted_token (o : outcome) : option string :=
  match o with
  | Responded (queued_json token) => Some token
  | Waiting token => Some token
  | Responded _ => None
  end.

(** Requests served one after the other, each with what it reads from
    outside. *)
Fixpoint serve (rqs : list (request * environment)) (st : state)
  : list outcome * state :=
  match rqs with
  | [] => ([], st)
  | (rq, env) :: rqs' =>
      let '(o, st') := watch rq env st in
      let '(os, st'') := serve rqs' st' in
      (o :: os, st'')
  end.

(** The jobs of client [ip] among the jobs given to the executor. *)
Definition jobs_of (ip : string) (jobs : list job) : list job :=
  filter (λ j, job_ip j = ip) jobs.

(** The count of client [ip] for [today], 0 when it has none. *)
Definition used_today (ip today : string) (limits : gmap string entry) : Z :=
  match limits !! ip with
  | Some e => if bool_decide (date e = today) then count e else 0
  | None => 0
  end.

(** Every count of the table lies between 1 and the cap. *)
Definition counts_in_range (limits : gmap string entry) : Prop :=
  ∀ ip e, limits !! ip = Some e → 1 ≤ count e ≤ MAX_DOWNLOADS_PER_DAY.

(** A record is filed under its own token, which is not empty, and its
    container is one of the two that [watch] lets through. *)
Definition well_filed (token : string) (i : info) : Prop :=
  info_token i = token ∧ token ≠ ""
  ∧ (info_format i = "mp4" ∨ info_format i = "webm").

Definition registry_well_filed (downloads : gmap string info) : Prop :=
  ∀ token i, downloads !! token = Some i → well_filed token i.

(** What identifies a job and never changes once it is registered. *)
Definition identity (i : info) : string * string * string * string * pyfloat :=
  (info_token i, info_ip i, info_video_id i, info_format i, info_started i).

(** The file is set exactly when the status is done, and the error exactly
    when it is error. *)
Definition consistent (i : info) : bool :=
  bool_decide (is_Some (info_file i) ↔ info_status i = Done)
  && bool_decide (is_Some (info_error i) ↔ info_status i = Error).

(** The polling loop of [watch] in not-json mode over the registries it
    reads, one per turn: the first answer, if any. *)
Fixpoint wait (token : string) (snapshots : list (gmap string info))
  : option response :=
  match snapshots with
  | [] => None
  | downloads :: rest =>
      match poll token downloads with
      | Some r => Some r
      | None => wait token rest
      end
  end.

(** A character of [0-9a-f], and a test on every character of a string. *)
Definition is_hex_digit (c : ascii) : bool :=
  let n := N_of_ascii c in
  ((48 <=? n) && (n <=? 57) || (97 <=? n) && (n <=? 102))%N.

Fixpoint all_chars (P : ascii → bool) (s : string) : bool :=
  match s with
  | EmptyString => true
  | String c s' => P c && all_chars P s'
  end.

(** A submission under a token of the caller's that is an absolute path. *)
Definition request_absolute : request :=
  with_token (Some "/tmp/x") request_a.

(** ** Workers side by side

    The executor runs up to [MAX_PARALLEL_DOWNLOADS] workers at once.  Each
    critical section of a worker is one step; a schedule says whose step
    comes next ([true]: the first worker's).  When the schedule is used up,
    or names a worker that has ended, what is left runs one worker after
    the other. *)
Definition run_steps (j : job) (clock : Z) (steps : list step) (st : state)
  : state :=
  foldl (λ st s, worker_step (job_token j) (job_fmt j) clock s st) st steps.

Fixpoint scheduled (sched : list bool) (j1 : job) (c1 : Z) (l1 : list step)
    (j2 : job) (c2 : Z) (l2 : list step) (st : state) : state :=
  match sched, l1, l2 with
  | true :: sched', s :: l1', _ =>
      scheduled sched' j1 c1 l1' j2 c2 l2
        (worker_step (job_token j1) (job_fmt j1) c1 s st)
  | false :: sched', _, s :: l2' =>
      scheduled sched' j1 c1 l1 j2 c2 l2'
        (worker_step (job_token j2) (job_fmt j2) c2 s st)
  | _, _, _ => run_steps j2 c2 l2 (run_steps j1 c1 l1 st)
  end.

(** Two states that differ at most in the order in which their timer
    threads were started. *)
Definition same_but_timer_order (st st' : state) : Prop :=
  DOWNLOADS st = DOWNLOADS st'
  ∧ IP_LIMITS st = IP_LIMITS st'
  ∧ TIMERS st ≡ₚ TIMERS st'
  ∧ SUBMITTED st = SUBMITTED st'
  ∧ FILES st = FILES st'.

(** The shape of every write of a worker to the registry: the record of
    its token is replaced, if there is one. *)
Definition update_record (token : string) (f : info → info)
    (downloads : gmap string info) : gmap string info :=
  match downloads !! token with
  | None => downloads
  | Some i => <[token := f i]> downloads
  end.

(** What a step does to the registry and to the timers. *)
Definition step_update (fmt : string) (token : string) (s : step)
  : info → info :=
  match s with
  | Hook d => hook_update d
  | Finish Completed =>
      λ i, Info (info_token i) (info_ip i) (info_video_id i) (info_format i)
             Done (info_percent i) (info_speed i) (info_eta i)
             (info_downloaded_bytes i) (info_total_bytes i) (info_started i)
             (Some (output_path token fmt)) (info_error i)
  | Finish (Raised e) =>
      λ i, Info (info_token i) (info_ip i) (info_video_id i) (info_format i)
             Error (info_percent i) (info_speed i) (info_eta i)
             (info_downloaded_bytes i) (info_total_bytes i) (info_started i)
             (info_file i) (Some e)
  end.

Definition step_timers (token fmt : string) (clock : Z) (s : step)
  : list (Z * timer_action) :=
  match s with
  | Finish Completed =>
      [(clock + TOKEN_EXPIRE_SECONDS, ExpireToken token);
       (clock + FILE_DELETE_SECONDS, DeleteFile (output_path token fmt))]
  | _ => []
  end.

(** A second submission, of another client, and its job. *)
Definition token_b : string := "b".

Definition request_b : request :=
  Request (Some "xyz789") false None None (Some "webm") (Some token_b)
          "10.0.0.2".

Definition job_b : job :=
  Job token_b "xyz789" None DEFAULT_AUDIO_BITRATE "webm" "10.0.0.2".

Definition state_ab : state := (watch request_b env_a state_a).2.

(** ** The percent as the specification words it *)

(** [a * b] on numbers: exact on two integers, the float product
    otherwise. *)
Definition pymul (a b : pynum) : pynum :=
  match a, b with
  | PyInt x, PyInt y => PyInt (x * y)
  | _, _ => PyFloat (fmul (to_float a) (to_float b))
  end.

(** [round(100 * downloaded / total, 2)], the formula of the specification
    read as Python reads it: the product first, then the quotient.  It is
    not what [progress_hook] computes; [percent_of] is. *)
Definition percent_as_worded (downloaded total : pynum) : pyfloat :=
  py_round (truediv (pymul (PyInt 100) downloaded) total) 2.

(** ** The program as a whole

    A configuration of the running program: the shared state, the workers
    that the executor has been given and that have not ended (each with the
    progress events its engine has still to emit and the way the engine
    will end), the instant, and how the workers that have ended left.

    An action is one thing a thread does under the lock, or the passing of
    time: a [/watch] request ([run] is what the engine will do for its
    job, should the request be accepted), the next critical section of the
    [k]-th worker, time passing until instant [t], and the body of the
    [k]-th timer thread once its sleep is over.  Threads are taken in any
    order, and a timer thread may run later than it is due, never earlier.
    [progress], [download] and the polling loop of [watch] only read. *)
Inductive variant : Type := AppPy | Https.

Record worker : Type := Worker {
  worker_job : job;
  worker_events : list event;
  worker_result : engine_result
}.

Record system : Type := System {
  sys_state : state;
  sys_workers : list worker;
  sys_now : Z;
  sys_exits : list Certbot.worker_exit
}.

Inductive action : Type :=
  | Submit (rq : request) (env : environment) (run : engine_run)
  | Work (k : nat)
  | Sleep (t : Z)
  | Wake (k : nat).

(** An engine that returns has left the output file at [outtmpl]. *)
Definition engine_writes (path : string) (st : state) : state :=
  State (DOWNLOADS st) (IP_LIMITS st) (TIMERS st) (SUBMITTED st)
        (FILES st ∪ {[path]}).

Definition variant_watch (v : variant) (rq : request) (env : environment)
    (st : state) : state :=
  match v with
  | AppPy => (watch rq env st).2
  | Https => (CertbotRoutes.watch rq env st).2
  end.

Definition variant_finish (v : variant) (token fmt : string) (clock : Z)
    (r : engine_result) (st : state) : Certbot.worker_exit * state :=
  match v with
  | AppPy => (Certbot.Returned, finish token fmt clock r st)
  | Https => Certbot.finish token fmt clock r st
  end.

(** [watch], and [executor.submit] for the job it has queued, if any. *)
Definition submit (v : variant) (rq : request) (env : environment)
    (run : engine_run) (sys : system) : system :=
  let st' := variant_watch v rq env (sys_state sys) in
  let new := drop (length (SUBMITTED (sys_state sys))) (SUBMITTED st') in
  System st'
         (sys_workers sys
          ++ ((λ j, Worker j (run_events run) (run_result run)) <$> new))
         (sys_now sys) (sys_exits sys).

(** The next critical section of the [k]-th worker: a progress hook while
    the engine has events to emit, the end of the worker after that. *)
Definition work (v : variant) (k : nat) (sys : system) : system :=
  match sys_workers sys !! k with
  | None => sys
  | Some w =>
      let j := worker_job w in
      match worker_events w with
      | d :: evs =>
          System (set_downloads (progress_hook (job_token j) d) (sys_state sys))
                 (<[k := Worker j evs (worker_result w)]> (sys_workers sys))
                 (sys_now sys) (sys_exits sys)
      | [] =>
          let st :=
            match worker_result w with
            | Completed =>
                engine_writes (output_path (job_token j) (job_fmt j))
                  (sys_state sys)
            | Raised _ => sys_state sys
            end in
          let r := variant_finish v (job_token j) (job_fmt j) (sys_now sys)
                     (worker_result w) st in
          System r.2 (delete k (sys_workers sys)) (sys_now sys)
                 (sys_exits sys ++ [r.1])
      end
  end.

(** The [k]-th timer thread wakes up, if its sleep is over, and ends. *)
Definition wake (k : nat) (sys : system) : system :=
  match TIMERS (sys_state sys) !! k with
  | None => sys
  | Some (due, a) =>
      if due <=? sys_now sys
      then
        let st := fire a (sys_state sys) in
        System (State (DOWNLOADS st) (IP_LIMITS st) (delete k (TIMERS st))
                      (SUBMITTED st) (FILES st))
               (sys_workers sys) (sys_now sys) (sys_exits sys)
      else sys
  end.

Definition sys_step (v : variant) (a : action) (sys : system) : system :=
  match a with
  | Submit rq env run => submit v rq env run sys
  | Work k => work v k sys
  | Sleep t =>
      System (sys_state sys) (sys_workers sys) (Z.max (sys_now sys) t)
             (sys_exits sys)
  | Wake k => wake k sys
  end.

Definition run_system (v : variant) (acts : list action) (sys : system)
  : system :=
  foldl (λ sys a, sys_step v a sys) sys acts.

Definition initial_system : system := System initial_state [] 0 [].

(** The tokens that have a worker running, and those whose removal is
    pending. *)
Definition running (workers : list worker) : list string :=
  (λ w, job_token (worker_job w)) <$> workers.

Definition expiry_of (da : Z * timer_action) : option string :=
  match da.2 with
  | ExpireToken token => Some token
  | DeleteFile _ => None
  end.

Definition expiring (timers : list (Z * timer_action)) : list string :=
  omap expiry_of timers.

(** Every token that has a worker running or a removal pending is
    registered, and has one worker or one removal, not both or two; and no
    worker has ended with an exception. *)
Definition tokens_accounted (sys : system) : Prop :=
  let tokens :=
    running (sys_workers sys) ++ expiring (TIMERS (sys_state sys)) in
  NoDup tokens
  ∧ Forall (λ token, is_Some (DOWNLOADS (sys_state sys) !! token)) tokens
  ∧ Forall (λ e, e = Certbot.Returned) (sys_exits sys).

(** A client submits under a token of its own, the job completes, the
    token expires after [TOKEN_EXPIRE_SECONDS], and the client submits
    again under the same token before the first job's file deletion is
    due; the second job completes, and the first job's deletion runs. *)
Definition reuse_of_a_token : list action :=
  [Submit request_again env_a run_one_stream;
   Work 0; Work 0; Work 0;
   Sleep 300; Wake 0;
   Submit request_again env_a run_one_stream;
   Work 0; Work 0; Work 0;
   Sleep 360; Wake 0].


(** ** Rate limiter: properties *)

Lemma check_ip_limit_absent ip today limits :
  limits !! ip = None →
  check_ip_limit ip today limits = (true, <[ip := Entry today 1]> limits).
Proof. intros H. unfold check_ip_limit. by rewrite H. Qed.

Lemma check_ip_limit_stale ip today limits e :
  limits !! ip = Some e → date e ≠ today →
  check_ip_limit ip today limits = (true, <[ip := Entry today 1]> limits).
Proof.
  intros H Hd. unfold check_ip_limit. rewrite H.
  by rewrite bool_decide_eq_false_2.
Qed.

Lemma check_ip_limit_full ip today limits e :
  limits !! ip = Some e → date e = today → MAX_DOWNLOADS_PER_DAY ≤ count e →
  check_ip_limit ip today limits = (false, limits).
Proof.
  intros H Hd Hc. unfold check_ip_limit. rewrite H.
  rewrite bool_decide_eq_true_2 by done. simpl.
  by rewrite (proj2 (Z.leb_le _ _) Hc).
Qed.

Lemma check_ip_limit_room ip today limits e :
  limits !! ip = Some e → date e = today → count e < MAX_DOWNLOADS_PER_DAY →
  check_ip_limit ip today limits
  = (true, <[ip := Entry today (count e + 1)]> limits).
Proof.
  intros H Hd Hc. unfold check_ip_limit. rewrite H.
  rewrite bool_decide_eq_true_2 by done. simpl.
  rewrite (proj2 (Z.leb_gt _ _) Hc). by rewrite Hd.
Qed.

(** Another client's entry is never touched. *)
Lemma check_ip_limit_frame ip ip' today limits :
  ip ≠ ip' → (check_ip_limit ip today limits).2 !! ip' = limits !! ip'.
Proof.
  intros Hne. unfold check_ip_limit.
  destruct (limits !! ip) as [e|]; simpl; [|by rewrite lookup_insert_ne].
  destruct (bool_decide (date e = today)); simpl;
    [|by rewrite lookup_insert_ne].
  destruct (MAX_DOWNLOADS_PER_DAY <=? count e); simpl;
    [done|by rewrite lookup_insert_ne].
Qed.

Lemma first_admitted_S n room :
  first_admitted (S n) (S room) = true :: first_admitted n room.
Proof. done. Qed.

Lemma first_admitted_full n : first_admitted (S n) 0 = false :: first_admitted n 0.
Proof. unfold first_admitted. by rewrite !Nat.min_0_r, !Nat.sub_0_r. Qed.

(** From an entry of today holding [c] with [1 ≤ c], the calls of the
    client that follow are admitted until the count reaches the cap,
    whatever other clients do in between. *)
Lemma submissions_from_count ip today callers : ∀ limits e,
  limits !! ip = Some e → date e = today → 1 ≤ count e →
  (submissions ip callers today limits).1
  = first_admitted (calls_of ip callers)
      (Z.to_nat (MAX_DOWNLOADS_PER_DAY - count e)).
Proof.
  induction callers as [|caller callers IH]; intros limits e He Hd Hc; [done|].
  cbn [submissions calls_of]. case_bool_decide as Hcaller.
  - subst caller.
    destruct (decide (count e < MAX_DOWNLOADS_PER_DAY)) as [Hlt|Hge].
    + rewrite (check_ip_limit_room _ _ _ _ He Hd Hlt).
      specialize (IH (<[ip:=Entry today (count e + 1)]> limits)
                    (Entry today (count e + 1))).
      destruct (submissions ip callers today _) as [oks l'] eqn:Hs.
      cbn [fst] in *. rewrite IH; [|by rewrite lookup_insert_eq|done|cbn; lia].
      cbn [count].
      replace (Z.to_nat (MAX_DOWNLOADS_PER_DAY - count e))
        with (S (Z.to_nat (MAX_DOWNLOADS_PER_DAY - (count e + 1)))) by lia.
      done.
    + rewrite (check_ip_limit_full _ _ _ _ He Hd) by lia.
      specialize (IH limits e He Hd Hc).
      destruct (submissions ip callers today limits) as [oks l'] eqn:Hs.
      cbn [fst] in *. rewrite IH.
      replace (Z.to_nat (MAX_DOWNLOADS_PER_DAY - count e)) with O by lia.
      by rewrite first_admitted_full.
  - pose proof (check_ip_limit_frame caller ip today limits Hcaller) as Hfr.
    destruct (check_ip_limit caller today limits) as [ok limits'].
    cbn [snd] in Hfr. rewrite He in Hfr.
    specialize (IH limits' e Hfr Hd Hc).
    destruct (submissions ip callers today limits') as [oks l'] eqn:Hs.
    cbn [fst] in *. by rewrite IH.
Qed.

Lemma submissions_fresh ip today callers : ∀ limits,
  fresh_day ip today limits →
  (submissions ip callers today limits).1
  = first_admitted (calls_of ip callers) (Z.to_nat MAX_DOWNLOADS_PER_DAY).
Proof.
  induction callers as [|caller callers IH]; intros limits Hf; [done|].
  cbn [submissions calls_of]. case_bool_decide as Hcaller.
  - subst caller.
    assert (check_ip_limit ip today limits
            = (true, <[ip := Entry today 1]> limits)) as ->.
    { unfold fresh_day in Hf. destruct (limits !! ip) as [e|] eqn:He.
      - by eapply check_ip_limit_stale.
      - by apply check_ip_limit_absent. }
    pose proof (submissions_from_count ip today callers
                  (<[ip:=Entry today 1]> limits) (Entry today 1)) as Hc.
    destruct (submissions ip callers today _) as [oks l'] eqn:Hs.
    cbn [fst] in *. rewrite Hc; [|by rewrite lookup_insert_eq|done|cbn; lia].
    done.
  - pose proof (check_ip_limit_frame caller ip today limits Hcaller) as Hfr.
    destruct (check_ip_limit caller today limits) as [ok limits'].
    cbn [snd] in Hfr.
    assert (fresh_day ip today limits') as Hf'.
    { unfold fresh_day in *. by rewrite Hfr. }
    specialize (IH limits' Hf').
    destruct (submissions ip callers today limits') as [oks l'] eqn:Hs.
    cbn [fst] in *. by rewrite IH.
Qed.

Lemma count_admitted_replicate a b :
  count_admitted (replicate a true ++ replicate b false) = a.
Proof.
  induction a as [|a IH]; simpl; [|by rewrite IH].
  induction b as [|b IH]; simpl; done.
Qed.

(** C5.  [check_ip_limit] admits and resets the entry to count 1 when the
    client has no entry or an entry of another day; rejects and leaves the
    table as it is when the entry of today holds [MAX_DOWNLOADS_PER_DAY] or
    more; otherwise adds one to the count and admits.  Hence, of the
    submissions of one client on one UTC day, with those of other clients
    in between, the first [MAX_DOWNLOADS_PER_DAY] are admitted and every
    later one is rejected: never more than the cap, and the one after the
    cap is refused. *)
Theorem check_ip_limit_quota (ip today : string) (limits : gmap string entry) :
  (fresh_day ip today limits →
     check_ip_limit ip today limits = (true, <[ip := Entry today 1]> limits))
  ∧ (∀ e, limits !! ip = Some e → date e = today →
       MAX_DOWNLOADS_PER_DAY ≤ count e →
       check_ip_limit ip today limits = (false, limits))
  ∧ (∀ e, limits !! ip = Some e → date e = today →
       count e < MAX_DOWNLOADS_PER_DAY →
       check_ip_limit ip today limits
       = (true, <[ip := Entry today (count e + 1)]> limits))
  ∧ (fresh_day ip today limits → ∀ callers,
       let cap := Z.to_nat MAX_DOWNLOADS_PER_DAY in
       let n := calls_of ip callers in
       let oks := (submissions ip callers today limits).1 in
       oks = replicate (Nat.min n cap) true ++ replicate (n - cap) false
       ∧ (count_admitted oks ≤ cap)%nat
       ∧ (cap < n → oks !! cap = Some false)%nat).
Proof.
  split; [|split; [|split]].
  - unfold fresh_day. intros Hf. destruct (limits !! ip) as [e|] eqn:He.
    + by eapply check_ip_limit_stale.
    + by apply check_ip_limit_absent.
  - intros e. apply check_ip_limit_full.
  - intros e. apply check_ip_limit_room.
  - intros Hf callers cap n oks.
    assert (oks = first_admitted n cap) as -> by by apply submissions_fresh.
    unfold first_admitted. split; [done|]. split.
    + rewrite count_admitted_replicate. lia.
    + intros Hn. rewrite lookup_app_r; rewrite length_replicate; [|lia].
      rewrite Nat.min_r by lia. rewrite Nat.sub_diag.
      destruct (n - cap)%nat eqn:Hd; [lia|done].
Qed.

Lemma check_ip_limit_quota_witness :
  fresh_day "10.0.0.1" "2024-01-01" ∅
  ∧ (submissions "10.0.0.1" ("10.0.0.2" :: replicate 11 "10.0.0.1")
       "2024-01-01" ∅).1
    = [true; true; true; true; true; true; true; true; true; true; false].
Proof.
  split; [exact I|].
  exact (proj1 (proj2 (proj2 (proj2
           (check_ip_limit_quota "10.0.0.1" "2024-01-01" ∅))) I
           ("10.0.0.2" :: replicate 11 "10.0.0.1"))).
Defined.

(** ** Routes: properties *)

Lemma hexdigits_length k n : String.length (hexdigits k n) = k.
Proof. induction k as [|k IH]; simpl; [done|by rewrite IH]. Qed.

Lemma uuid4_hex_nonempty urandom : uuid4_hex urandom ≠ "".
Proof.
  intros H. pose proof (hexdigits_length 32 (uuid4_int urandom)) as Hl.
  unfold uuid4_hex in H. rewrite H in Hl. discriminate Hl.
Qed.

Lemma nonempty_Some s t : nonempty s = Some t → s = Some t ∧ t ≠ "".
Proof.
  destruct s as [[|c s]|]; simpl; intros H; try discriminate.
  by injection H as <-.
Qed.

Lemma nonempty_of_Some t : t ≠ "" → nonempty (Some t) = Some t.
Proof. by destruct t. Qed.

(** The token [watch] works with is never the empty string. *)
Lemma watch_token_nonempty rq env :
  default (uuid4_hex (env_urandom env)) (nonempty (arg_token rq)) ≠ "".
Proof.
  destruct (nonempty (arg_token rq)) as [t|] eqn:Ht; simpl.
  - by apply nonempty_Some in Ht as [_ ?].
  - apply uuid4_hex_nonempty.
Qed.

Lemma set_limits_same st : set_limits (IP_LIMITS st) st = st.
Proof. by destruct st. Qed.

(** C1 (amended).  A requester other than the owner of a registered job
    gets Forbidden from [progress] whatever the status of the job is; from
    [download] it gets Forbidden when the job is done, and Conflict (not
    ready) when it is not: [download] tests the status before the owner. *)
Theorem foreign_requester_forbidden (downloads : gmap string info)
    (token ip : string) (now : pyfloat) (i : info) :
  token ≠ "" → downloads !! token = Some i → info_ip i ≠ ip →
  http_status (progress (Some token) ip now downloads) = Forbidden
  ∧ http_status (download (Some token) ip downloads)
    = if bool_decide (info_status i = Done) then Forbidden else Conflict.
Proof.
  intros Ht Hi Hip. unfold progress, download.
  rewrite (nonempty_of_Some _ Ht), Hi.
  rewrite (bool_decide_eq_false_2 _ Hip). simpl. split; [done|].
  by destruct (bool_decide (info_status i = Done)).
Qed.

Lemma foreign_requester_forbidden_witness :
  http_status (progress (Some token_a) "10.0.0.2" (env_now env_a)
                 (DOWNLOADS state_a)) = Forbidden
  ∧ http_status (download (Some token_a) "10.0.0.2" (DOWNLOADS state_a))
    = Conflict.
Proof.
  refine (foreign_requester_forbidden (DOWNLOADS state_a) token_a "10.0.0.2"
            (env_now env_a) (new_info token_a "10.0.0.1" "abc123" "mp4"
                               (env_now env_a)) _ _ _).
  - discriminate.
  - vm_compute. reflexivity.
  - discriminate.
Defined.

(** C1, as stated, fails: the job of 10.0.0.1 is queued, 10.0.0.2 asks for
    the file and is answered 409 (Conflict), not 403 (Forbidden). *)
Lemma download_before_done_not_forbidden :
  info_ip <$> DOWNLOADS state_a !! token_a = Some "10.0.0.1"
  ∧ info_status <$> DOWNLOADS state_a !! token_a = Some Queued
  ∧ download (Some token_a) "10.0.0.2" (DOWNLOADS state_a)
    = error_json 409 "Not ready or expired"
  ∧ (409 =? Forbidden) = false.
Proof. vm_compute. repeat split; reflexivity. Qed.

(** The tests of [watch], in the order in which it makes them. *)
Lemma watch_missing_v rq env st :
  nonempty (arg_v rq) = None →
  watch rq env st = (reject (arg_not_json rq) 400 "Missing v", st).
Proof. intros H. unfold watch. by rewrite H. Qed.

Lemma watch_rate_limited rq env st video_id :
  nonempty (arg_v rq) = Some video_id →
  (check_ip_limit (remote_addr rq) (env_today env) (IP_LIMITS st)).1 = false →
  watch rq env st = (reject (arg_not_json rq) 429 "Daily limit reached", st).
Proof.
  intros Hv Hok. unfold watch. rewrite Hv.
  destruct (check_ip_limit _ _ _) as [ok limits] eqn:Hc. simpl in Hok. subst ok.
  simpl. f_equal.
  assert (limits = IP_LIMITS st) as ->; [|apply set_limits_same].
  unfold check_ip_limit in Hc.
  destruct (IP_LIMITS st !! remote_addr rq) as [e|]; [|by inversion Hc].
  destruct (negb _); [by inversion Hc|].
  destruct (_ <=? _); by inversion Hc.
Qed.

Lemma watch_admitted rq env st video_id :
  nonempty (arg_v rq) = Some video_id →
  (check_ip_limit (remote_addr rq) (env_today env) (IP_LIMITS st)).1 = true →
  let ip := remote_addr rq in
  let st1 := set_limits (check_ip_limit ip (env_today env) (IP_LIMITS st)).2 st in
  let fmt := lower (default "mp4" (arg_format rq)) in
  let token := default (uuid4_hex (env_urandom env)) (nonempty (arg_token rq)) in
  watch rq env st =
    if negb (bool_decide (fmt = "mp4") || bool_decide (fmt = "webm"))
    then (reject (arg_not_json rq) 400 "Invalid format", st1)
    else match DOWNLOADS st !! token with
         | Some _ => (reject (arg_not_json rq) 409 "Token in use", st1)
         | None =>
             (if arg_not_json rq then Waiting token
              else Responded (queued_json token),
              State (<[token := new_info token ip video_id fmt (env_now env)]>
                       (DOWNLOADS st))
                    (IP_LIMITS st1) (TIMERS st)
                    (SUBMITTED st
                     ++ [Job token video_id (arg_res rq)
                           (default DEFAULT_AUDIO_BITRATE (arg_audio rq)) fmt ip])
                    (FILES st))
         end.
Proof.
  intros Hv Hok. unfold watch. rewrite Hv.
  destruct (check_ip_limit _ _ _) as [ok limits] eqn:Hc. simpl in Hok. subst ok.
  simpl. done.
Qed.

Lemma reject_status nj code msg :
  outcome_status (reject nj code msg) = Some code.
Proof. by destruct nj. Qed.

(** C6.  [watch] answers: BadRequest when the subject [v] is missing or
    empty; otherwise RateLimited when [check_ip_limit] refuses the client;
    otherwise BadRequest when the container format (lower-cased, mp4 when
    absent) is neither mp4 nor webm; otherwise Conflict when the token (the
    caller's, or a generated one) is in the registry.  Otherwise the
    submission is accepted: the registry gets, under the token, a record
    with status queued and percent 0 owned by the caller, the token is the
    generated one when the caller supplied none, the token is returned, and
    a progress call of the owner reads status queued and percent 0. *)
Theorem watch_decisions (rq : request) (env : environment) (st : state) :
  let ip := remote_addr rq in
  let ok := (check_ip_limit ip (env_today env) (IP_LIMITS st)).1 in
  let fmt := lower (default "mp4" (arg_format rq)) in
  let token := default (uuid4_hex (env_urandom env)) (nonempty (arg_token rq)) in
  let result := watch rq env st in
  (nonempty (arg_v rq) = None →
     outcome_status result.1 = Some BadRequest ∧ result.2 = st)
  ∧ (∀ video_id, nonempty (arg_v rq) = Some video_id →
      (ok = false →
         outcome_status result.1 = Some RateLimited ∧ result.2 = st)
      ∧ (ok = true → fmt ≠ "mp4" → fmt ≠ "webm" →
         outcome_status result.1 = Some BadRequest
         ∧ DOWNLOADS result.2 = DOWNLOADS st)
      ∧ (ok = true → fmt = "mp4" ∨ fmt = "webm" →
         is_Some (DOWNLOADS st !! token) →
         outcome_status result.1 = Some Conflict
         ∧ DOWNLOADS result.2 = DOWNLOADS st)
      ∧ (ok = true → fmt = "mp4" ∨ fmt = "webm" →
         DOWNLOADS st !! token = None →
         result.1 = (if arg_not_json rq then Waiting token
                     else Responded (queued_json token))
         ∧ DOWNLOADS result.2
           = <[token := new_info token ip video_id fmt (env_now env)]>
               (DOWNLOADS st)
         ∧ (∃ i, DOWNLOADS result.2 !! token = Some i
                 ∧ info_status i = Queued ∧ info_percent i = PyInt 0
                 ∧ info_ip i = ip)
         ∧ (nonempty (arg_token rq) = None →
            token = uuid4_hex (env_urandom env))
         ∧ (∀ now, ∃ body,
              progress (Some token) ip now (DOWNLOADS result.2)
              = progress_json body
              ∧ body_status body = "queued" ∧ body_percent body = PyInt 0))).
Proof.
  intros ip ok fmt token result. split.
  { intros Hv. subst result. rewrite (watch_missing_v _ _ _ Hv).
    cbn [fst snd]. by rewrite reject_status. }
  intros video_id Hv. split; [|split; [|split]].
  - intros Hok. subst result. rewrite (watch_rate_limited _ _ _ _ Hv Hok).
    cbn [fst snd]. by rewrite reject_status.
  - intros Hok Hm Hw. subst result. rewrite (watch_admitted _ _ _ _ Hv Hok).
    cbv zeta. fold fmt. rewrite !bool_decide_eq_false_2 by done.
    cbn [orb negb fst snd]. by rewrite reject_status.
  - intros Hok Hf [i Hi]. subst result.
    rewrite (watch_admitted _ _ _ _ Hv Hok). cbv zeta. fold fmt token.
    rewrite Hi.
    assert (negb (bool_decide (fmt = "mp4") || bool_decide (fmt = "webm"))
            = false) as ->.
    { destruct Hf as [-> | ->]; done. }
    cbn [fst snd]. by rewrite reject_status.
  - intros Hok Hf Hnone. subst result.
    rewrite (watch_admitted _ _ _ _ Hv Hok). cbv zeta. fold fmt token ip.
    rewrite Hnone.
    assert (negb (bool_decide (fmt = "mp4") || bool_decide (fmt = "webm"))
            = false) as ->.
    { destruct Hf as [-> | ->]; done. }
    cbn [fst snd DOWNLOADS].
    assert (token ≠ "") as Hne by apply watch_token_nonempty.
    repeat split.
    + exists (new_info token ip video_id fmt (env_now env)).
      by rewrite lookup_insert_eq.
    + intros Hn. subst token. by rewrite Hn.
    + intros now. eexists. unfold progress.
      rewrite (nonempty_of_Some _ Hne), lookup_insert_eq.
      cbn [new_info info_ip]. rewrite bool_decide_eq_true_2 by done.
      cbn [negb]. split; [reflexivity|]. done.
Qed.

Lemma watch_decisions_witness :
  (watch request_a env_a initial_state).1 = Responded (queued_json token_a)
  ∧ ∃ body,
      progress (Some token_a) "10.0.0.1" (env_now env_a) (DOWNLOADS state_a)
      = progress_json body
      ∧ body_status body = "queued" ∧ body_percent body = PyInt 0.
Proof.
  pose proof (watch_decisions request_a env_a initial_state) as [_ H].
  specialize (H "abc123" eq_refl) as (_ & _ & _ & H).
  specialize (H ltac:(vm_compute; reflexivity) (or_introl eq_refl)
                ltac:(vm_compute; reflexivity))
    as (Hr & _ & _ & _ & Hp).
  split; [exact Hr|]. exact (Hp (env_now env_a)).
Defined.

(** The entry an admitted call leaves for its client. *)
Lemma check_ip_limit_admitted_entry ip today limits :
  (check_ip_limit ip today limits).1 = true →
  (check_ip_limit ip today limits).2 !! ip
  = Some (Entry today
            match limits !! ip with
            | Some e => if bool_decide (date e = today) then count e + 1 else 1
            | None => 1
            end)
  ∧ (check_ip_limit ip today limits).2 !! ip ≠ limits !! ip.
Proof.
  unfold check_ip_limit. destruct (limits !! ip) as [e|] eqn:He.
  - case_bool_decide as Hd; cbn [negb].
    + destruct (MAX_DOWNLOADS_PER_DAY <=? count e); [done|].
      intros _. cbn [fst snd]. rewrite lookup_insert_eq, Hd.
      split; [done|]. destruct e as [d c]. simpl. intros [=]. lia.
    + intros _. cbn [fst snd]. rewrite lookup_insert_eq.
      split; [done|]. destruct e as [d c]. simpl in *. intros [= <-]. done.
  - intros _. cbn [fst snd]. by rewrite lookup_insert_eq.
Qed.

(** C9.  A submission that carries a subject and is answered BadRequest
    (container format) or Conflict (token in use) has passed
    [check_ip_limit] before: the registry and the executor's jobs are as
    they were, and the client's rate-limit entry has changed, to count 1
    after a reset and to the old count plus one otherwise. *)
Theorem rejected_submission_consumes_quota (rq : request) (env : environment)
    (st : state) (video_id : string) :
  nonempty (arg_v rq) = Some video_id →
  outcome_status (watch rq env st).1 = Some BadRequest
  ∨ outcome_status (watch rq env st).1 = Some Conflict →
  let ip := remote_addr rq in
  let today := env_today env in
  let st' := (watch rq env st).2 in
  DOWNLOADS st' = DOWNLOADS st
  ∧ SUBMITTED st' = SUBMITTED st
  ∧ (check_ip_limit ip today (IP_LIMITS st)).1 = true
  ∧ IP_LIMITS st' = (check_ip_limit ip today (IP_LIMITS st)).2
  ∧ IP_LIMITS st' !! ip
    = Some (Entry today
              match IP_LIMITS st !! ip with
              | Some e => if bool_decide (date e = today) then count e + 1 else 1
              | None => 1
              end)
  ∧ IP_LIMITS st' !! ip ≠ IP_LIMITS st !! ip.
Proof.
  intros Hv Hrej ip today st'. subst st'.
  destruct (check_ip_limit ip today (IP_LIMITS st)).1 eqn:Hok.
  - pose proof (check_ip_limit_admitted_entry _ _ _ Hok) as [He Hne].
    rewrite (watch_admitted _ _ _ _ Hv Hok) in Hrej |- *. cbv zeta in *.
    fold ip today in Hrej |- *.
    destruct (negb _).
    + cbn [fst snd DOWNLOADS SUBMITTED IP_LIMITS set_limits]. done.
    + destruct (DOWNLOADS st !! _).
      * cbn [fst snd DOWNLOADS SUBMITTED IP_LIMITS set_limits]. done.
      * cbn [fst] in Hrej. destruct (arg_not_json rq), Hrej; discriminate.
  - rewrite (watch_rate_limited _ _ _ _ Hv Hok) in Hrej. cbn [fst] in Hrej.
    rewrite reject_status in Hrej. destruct Hrej; discriminate.
Qed.

Lemma rejected_submission_consumes_quota_witness :
  (outcome_status (watch request_again env_a state_a).1 = Some Conflict
   ∧ DOWNLOADS (watch request_again env_a state_a).2 = DOWNLOADS state_a
   ∧ IP_LIMITS state_a !! "10.0.0.1" = Some (Entry "2024-01-01" 1)
   ∧ IP_LIMITS (watch request_again env_a state_a).2 !! "10.0.0.1"
     = Some (Entry "2024-01-01" 2))
  ∧ (outcome_status (watch request_avi env_a initial_state).1 = Some BadRequest
     ∧ DOWNLOADS (watch request_avi env_a initial_state).2 = ∅
     ∧ IP_LIMITS (watch request_avi env_a initial_state).2 !! "10.0.0.1"
       = Some (Entry "2024-01-01" 1)).
Proof.
  assert (outcome_status (watch request_again env_a state_a).1 = Some Conflict)
    as Hc by (vm_compute; reflexivity).
  assert (outcome_status (watch request_avi env_a initial_state).1
          = Some BadRequest) as Hb by (vm_compute; reflexivity).
  pose proof (rejected_submission_consumes_quota request_again env_a state_a
                "abc123" eq_refl (or_intror Hc)) as (Hd & _ & _ & _ & He & _).
  pose proof (rejected_submission_consumes_quota request_avi env_a
                initial_state "abc123" eq_refl (or_introl Hb))
    as (Hd' & _ & _ & _ & He' & _).
  split.
  - split; [exact Hc|]. split; [exact Hd|].
    split; [vm_compute; reflexivity|]. exact He.
  - split; [exact Hb|]. split; [exact Hd'|]. exact He'.
Defined.

(** For every request, the registry lookup of the empty string is left as
    it is, and what is stored under it has no influence on the outcome. *)
Lemma watch_empty_key rq env st :
  DOWNLOADS (watch rq env st).2 !! "" = DOWNLOADS st !! ""
  ∧ ∀ i, (watch rq env (set_downloads (insert "" i) st)).1
         = (watch rq env st).1.
Proof.
  assert (default (uuid4_hex (env_urandom env)) (nonempty (arg_token rq)) ≠ "")
    as Hne by apply watch_token_nonempty.
  destruct (nonempty (arg_v rq)) as [video_id|] eqn:Hv.
  - destruct (check_ip_limit (remote_addr rq) (env_today env) (IP_LIMITS st)).1
      eqn:Hok.
    + split.
      * rewrite (watch_admitted _ _ _ _ Hv Hok). cbv zeta.
        destruct (negb _); [done|].
        destruct (DOWNLOADS st !! _); [done|].
        cbn [snd DOWNLOADS]. by rewrite lookup_insert_ne.
      * intros i. rewrite (watch_admitted _ _ _ _ Hv Hok).
        rewrite (watch_admitted rq env (set_downloads (insert "" i) st)
                   video_id Hv Hok).
        cbv zeta. destruct (negb _); [done|].
        cbn [set_downloads DOWNLOADS]. rewrite lookup_insert_ne by done.
        by destruct (DOWNLOADS st !! _).
    + split.
      * by rewrite (watch_rate_limited _ _ _ _ Hv Hok).
      * intros i. rewrite (watch_rate_limited _ _ _ _ Hv Hok).
        by rewrite (watch_rate_limited rq env (set_downloads (insert "" i) st)
                      video_id Hv Hok).
  - split.
    + by rewrite (watch_missing_v _ _ _ Hv).
    + intros i. by rewrite !(watch_missing_v _ _ _ Hv).
Qed.

(** The token of an accepted submission. *)
Lemma watch_accepted_token rq env st token :
  (watch rq env st).1 = Waiting token
  ∨ (watch rq env st).1 = Responded (queued_json token) →
  token = default (uuid4_hex (env_urandom env)) (nonempty (arg_token rq)).
Proof.
  destruct (nonempty (arg_v rq)) as [video_id|] eqn:Hv.
  - destruct (check_ip_limit (remote_addr rq) (env_today env) (IP_LIMITS st)).1
      eqn:Hok.
    + rewrite (watch_admitted _ _ _ _ Hv Hok). cbv zeta.
      destruct (negb _).
      { cbn [fst]. destruct (arg_not_json rq); intros [?|?]; discriminate. }
      destruct (DOWNLOADS st !! _).
      { cbn [fst]. destruct (arg_not_json rq); intros [?|?]; discriminate. }
      cbn [fst]. destruct (arg_not_json rq); intros [H|H];
        try discriminate; by inversion H.
    + rewrite (watch_rate_limited _ _ _ _ Hv Hok). cbn [fst].
      destruct (arg_not_json rq); intros [?|?]; discriminate.
  - rewrite (watch_missing_v _ _ _ Hv). cbn [fst].
    destruct (arg_not_json rq); intros [?|?]; discriminate.
Qed.

(** C10.  A submission whose token argument is the empty string is served
    as the same submission with no token argument: the token of an accepted
    submission is the generated one, which is not empty; the empty string is
    not looked up in the registry (what is stored under it does not change
    the outcome) and is not stored in it. *)
Theorem empty_token_is_no_token (rq : request) (env : environment)
    (st : state) :
  arg_token rq = Some "" →
  watch rq env st = watch (with_token None rq) env st
  ∧ (∀ token,
       (watch rq env st).1 = Waiting token
       ∨ (watch rq env st).1 = Responded (queued_json token) →
       token = uuid4_hex (env_urandom env) ∧ token ≠ "")
  ∧ (∀ i, (watch rq env (set_downloads (insert "" i) st)).1
          = (watch rq env st).1)
  ∧ DOWNLOADS (watch rq env st).2 !! "" = DOWNLOADS st !! "".
Proof.
  intros Ht. split; [|split; [|split]].
  - unfold watch, with_token. cbn [arg_v arg_not_json arg_res arg_audio
      arg_format arg_token remote_addr]. by rewrite Ht.
  - intros token H. apply watch_accepted_token in H. rewrite Ht in H.
    cbn [nonempty default] in H. subst token.
    split; [done|apply uuid4_hex_nonempty].
  - apply watch_empty_key.
  - apply watch_empty_key.
Qed.

Lemma empty_token_is_no_token_witness :
  watch request_empty_token env_a initial_state
  = watch request_a env_a initial_state
  ∧ (watch request_empty_token env_a initial_state).1
    = Responded (queued_json token_a).
Proof.
  pose proof (empty_token_is_no_token request_empty_token env_a initial_state
                eq_refl) as [H _].
  split; [exact H|]. vm_compute. reflexivity.
Defined.

(** ** Progress bridge: properties *)

Lemma progress_hook_live token d downloads i :
  downloads !! token = Some i →
  progress_hook token d downloads = <[token := hook_update d i]> downloads.
Proof. intros H. unfold progress_hook. by rewrite H. Qed.

Lemma progress_hook_gone token d downloads :
  downloads !! token = None → progress_hook token d downloads = downloads.
Proof. intros H. unfold progress_hook. by rewrite H. Qed.

(** The hook of one token leaves the records of the others alone. *)
Lemma progress_hook_frame token token' d downloads :
  token ≠ token' → progress_hook token d downloads !! token' = downloads !! token'.
Proof.
  intros Hne. unfold progress_hook.
  destruct (downloads !! token); [by rewrite lookup_insert_ne|done].
Qed.

(** C7 (amended).  For a token that is registered, a ["downloading"] event
    sets the status of its record to downloading, the byte count to the
    event's (0 when it has none), the total to the event's [total_bytes] or
    else its [total_bytes_estimate], speed and ETA to the event's, and
    percent to [round((downloaded / total) * 100, 2)], the quotient taken
    first and then multiplied, when that total is known and not zero, and
    to 0 otherwise; a ["finished"] event sets the status to processing and
    percent to 100.  Every other field stays as it was. *)
Theorem progress_hook_event (token : string) (d : event)
    (downloads : gmap string info) (i : info) :
  downloads !! token = Some i →
  let total := py_or (d_total_bytes d) (d_total_bytes_estimate d) in
  let downloaded := default (PyInt 0) (d_downloaded_bytes d) in
  (d_status d = "downloading" →
   ∃ i', progress_hook token d downloads = <[token := i']> downloads
     ∧ info_status i' = Downloading
     ∧ (∀ t, total = Some t → truthy_num t = true →
          info_percent i'
          = PyFloat (py_round (fmul (truediv downloaded t) (float_of_Z 100)) 2))
     ∧ (truthy total = false → info_percent i' = PyInt 0)
     ∧ info_downloaded_bytes i' = downloaded
     ∧ info_total_bytes i' = total
     ∧ info_speed i' = d_speed d
     ∧ info_eta i' = d_eta d
     ∧ (info_token i', info_ip i', info_video_id i', info_format i',
        info_started i', info_file i', info_error i')
       = (info_token i, info_ip i, info_video_id i, info_format i,
          info_started i, info_file i, info_error i))
  ∧ (d_status d = "finished" →
     ∃ i', progress_hook token d downloads = <[token := i']> downloads
       ∧ info_status i' = Processing
       ∧ info_percent i' = PyFloat (float_of_Z 100)
       ∧ (info_token i', info_ip i', info_video_id i', info_format i',
          info_speed i', info_eta i', info_downloaded_bytes i',
          info_total_bytes i', info_started i', info_file i', info_error i')
         = (info_token i, info_ip i, info_video_id i, info_format i,
            info_speed i, info_eta i, info_downloaded_bytes i,
            info_total_bytes i, info_started i, info_file i, info_error i)).
Proof.
  intros Hi total downloaded. rewrite (progress_hook_live _ _ _ _ Hi).
  split; intros Hs; exists (hook_update d i); unfold hook_update; rewrite Hs.
  - rewrite bool_decide_eq_true_2 by done. cbn [info_status info_percent
      info_downloaded_bytes info_total_bytes info_speed info_eta info_token
      info_ip info_video_id info_format info_started info_file info_error].
    fold total downloaded. repeat split.
    + intros t Ht Htr. unfold percent_of. by rewrite Ht, Htr.
    + intros Hf. unfold percent_of. destruct total as [t|]; [|done].
      simpl in Hf. by rewrite Hf.
  - rewrite bool_decide_eq_false_2 by done.
    rewrite bool_decide_eq_true_2 by done. done.
Qed.

Lemma progress_hook_event_witness :
  info_status <$> progress_hook token_a event_downloading (DOWNLOADS state_a)
                  !! token_a = Some Downloading
  ∧ info_percent <$> progress_hook token_a event_downloading (DOWNLOADS state_a)
                       !! token_a
    = Some (PyFloat (S754_finite false 8089590830664253 (-49))).
Proof.
  pose proof (progress_hook_event token_a event_downloading (DOWNLOADS state_a)
                (new_info token_a "10.0.0.1" "abc123" "mp4" (env_now env_a))
                ltac:(vm_compute; reflexivity)) as [H _].
  destruct (H eq_refl) as (i' & -> & Hst & Hp & _).
  rewrite lookup_insert_eq. simpl. split; [by rewrite Hst|].
  by rewrite (Hp (PyInt 160) eq_refl eq_refl).
Defined.

(** The float 14.37: the quotient 23/160 is rounded before it is multiplied
    by 100, and the product 14.374999999999998 rounds down. *)
Example percent_23_of_160 :
  percent_of (PyInt 23) (Some (PyInt 160))
  = PyFloat (S754_finite false 8089590830664253 (-49))
  ∧ py_round (int_truediv 1437 100) 2 = S754_finite false 8089590830664253 (-49).
Proof. vm_compute. split; reflexivity. Qed.

Example percent_half :
  percent_of (PyInt 1) (Some (PyInt 2)) = PyFloat (float_of_Z 50)
  ∧ percent_of (PyInt 7) None = PyInt 0
  ∧ percent_of (PyInt 7) (Some (PyInt 0)) = PyInt 0.
Proof. vm_compute. repeat split; reflexivity. Qed.

(** C7, the counterexample.  For the event that reports 23 bytes of 160
    the hook writes 14.37, the float nearest to 1437/100, and the formula
    of the specification, [round(100 * downloaded / total, 2)], gives
    14.38, the float nearest to 1438/100: 2300/160 is 14.375 exactly and
    rounds to even, while 23/160 is rounded before it is multiplied and
    the product lies below 14.375. *)
Lemma percent_is_not_as_worded :
  info_percent <$> progress_hook token_a event_downloading (DOWNLOADS state_a)
                     !! token_a
  = Some (PyFloat (int_truediv 1437 100))
  ∧ percent_as_worded (PyInt 23) (PyInt 160) = int_truediv 1438 100
  ∧ truediv (pymul (PyInt 100) (PyInt 23)) (PyInt 160)
    = int_truediv 14375 1000
  ∧ SFltb (fmul (truediv (PyInt 23) (PyInt 160)) (float_of_Z 100))
          (int_truediv 14375 1000) = true
  ∧ SFltb (int_truediv 1437 100) (int_truediv 1438 100) = true.
Proof. vm_compute. repeat split; reflexivity. Qed.

(** ** Timers: properties *)

Lemma fire_due_downloads t timers : ∀ st token,
  DOWNLOADS (fire_due t timers st) !! token
  = if due_by t (ExpireToken token) timers then None
    else DOWNLOADS st !! token.
Proof.
  induction timers as [|[due a] rest IH]; intros st token; [done|].
  unfold due_by in *. cbn [fire_due existsb fst snd].
  destruct (due <=? t); cbn [andb orb]; [|apply IH].
  rewrite IH. case_bool_decide as Ha; cbn [orb].
  - subst a. cbn [fire set_downloads DOWNLOADS]. rewrite lookup_delete_eq.
    by destruct (existsb _ rest).
  - destruct (existsb _ rest); [done|].
    destruct a as [token'|path]; cbn [fire set_downloads DOWNLOADS]; [|done].
    rewrite lookup_delete_ne; [done|]. intros ->. by apply Ha.
Qed.

Lemma fire_due_files t timers : ∀ st path,
  path ∈ FILES (fire_due t timers st)
  ↔ path ∈ FILES st ∧ due_by t (DeleteFile path) timers = false.
Proof.
  induction timers as [|[due a] rest IH]; intros st path.
  { cbn. tauto. }
  unfold due_by in *. cbn [fire_due existsb fst snd].
  destruct (due <=? t); cbn [andb orb]; [|apply IH].
  rewrite IH. case_bool_decide as Ha; cbn [orb].
  - subst a. cbn [fire FILES]. rewrite elem_of_difference, elem_of_singleton.
    split; [intros [[_ []] _]; done|intros [_ [=]]].
  - destruct a as [token|path']; cbn [fire set_downloads FILES]; [done|].
    assert (path ≠ path') by (intros ->; by apply Ha).
    rewrite elem_of_difference, elem_of_singleton. tauto.
Qed.

Lemma advance_downloads t st token :
  DOWNLOADS (advance t st) !! token
  = if due_by t (ExpireToken token) (TIMERS st) then None
    else DOWNLOADS st !! token.
Proof. unfold advance. cbn [DOWNLOADS]. apply fire_due_downloads. Qed.

Lemma advance_files t st path :
  path ∈ FILES (advance t st)
  ↔ path ∈ FILES st ∧ due_by t (DeleteFile path) (TIMERS st) = false.
Proof. unfold advance. cbn [FILES]. apply fire_due_files. Qed.

Lemma due_by_app t a l1 l2 :
  due_by t a (l1 ++ l2) = due_by t a l1 || due_by t a l2.
Proof. apply existsb_app. Qed.


(** ** Download worker: properties *)

Lemma download_worker_eq j clock run st :
  download_worker j clock run st
  = finish (job_token j) (job_fmt j) clock (run_result run)
      (after_hooks (job_token j) (run_events run) st).
Proof.
  unfold download_worker, worker_steps, after_hooks.
  rewrite foldl_app. cbn [foldl worker_step]. f_equal.
  generalize st. induction (run_events run) as [|d evs IH]; intros st0; [done|].
  cbn [map foldl worker_step]. apply IH.
Qed.

Lemma certbot_download_worker_eq j clock run st :
  Certbot.download_worker j clock run st
  = Certbot.finish (job_token j) (job_fmt j) clock (run_result run)
      (after_hooks (job_token j) (run_events run) st).
Proof. done. Qed.

Lemma after_hooks_cons token d evs st :
  after_hooks token (d :: evs) st
  = after_hooks token evs (set_downloads (progress_hook token d) st).
Proof. done. Qed.

(** The hooks write the registry and nothing else, and they neither
    register nor remove a token. *)
Lemma after_hooks_frame token evs : ∀ st,
  IP_LIMITS (after_hooks token evs st) = IP_LIMITS st
  ∧ TIMERS (after_hooks token evs st) = TIMERS st
  ∧ SUBMITTED (after_hooks token evs st) = SUBMITTED st
  ∧ FILES (after_hooks token evs st) = FILES st
  ∧ (DOWNLOADS st !! token = None →
     DOWNLOADS (after_hooks token evs st) = DOWNLOADS st)
  ∧ (is_Some (DOWNLOADS st !! token) →
     is_Some (DOWNLOADS (after_hooks token evs st) !! token)).
Proof.
  induction evs as [|d evs IH]; intros st; [done|].
  rewrite !after_hooks_cons.
  destruct (IH (set_downloads (progress_hook token d) st))
    as (H1 & H2 & H3 & H4 & H5 & H6).
  rewrite H1, H2, H3, H4. repeat split.
  - intros Hn. rewrite H5; cbn [set_downloads DOWNLOADS];
      by rewrite progress_hook_gone.
  - intros [i Hi]. apply H6. cbn [set_downloads DOWNLOADS].
    rewrite (progress_hook_live _ _ _ _ Hi). by rewrite lookup_insert_eq.
Qed.

Lemma mark_error_lookup token e downloads :
  mark_error token e downloads !! token
  = (λ i, Info (info_token i) (info_ip i) (info_video_id i) (info_format i)
               Error (info_percent i) (info_speed i) (info_eta i)
               (info_downloaded_bytes i) (info_total_bytes i) (info_started i)
               (info_file i) (Some e)) <$> downloads !! token.
Proof.
  unfold mark_error. destruct (downloads !! token) as [i|] eqn:Hi.
  - by rewrite lookup_insert_eq.
  - by rewrite Hi.
Qed.

Lemma mark_done_lookup token path downloads :
  mark_done token path downloads !! token
  = (λ i, Info (info_token i) (info_ip i) (info_video_id i) (info_format i)
               Done (info_percent i) (info_speed i) (info_eta i)
               (info_downloaded_bytes i) (info_total_bytes i) (info_started i)
               (Some path) (info_error i)) <$> downloads !! token.
Proof.
  unfold mark_done. destruct (downloads !! token) as [i|] eqn:Hi.
  - by rewrite lookup_insert_eq.
  - by rewrite Hi.
Qed.

(** In [app.py] every write of the worker is guarded: for a token that is
    no longer registered the hook and both final writes change nothing in
    the registry. *)
Lemma purged_token_writes_are_noops token fmt clock d r st :
  DOWNLOADS st !! token = None →
  set_downloads (progress_hook token d) st = st
  ∧ DOWNLOADS (finish token fmt clock r st) = DOWNLOADS st.
Proof.
  intros Hn. split.
  - unfold set_downloads. rewrite (progress_hook_gone _ _ _ Hn). by destruct st.
  - destruct r; cbn; unfold mark_done, mark_error; by rewrite Hn.
Qed.

(** C3 (amended).  When the engine raises, the worker sets the record, if
    it is still registered, to status error with the description of the
    failure, and arms no timer at all: neither the file deletion nor the
    registry removal.  The error record therefore stays in the registry at
    every later instant, unless a removal of the same token was already
    pending.  The HTTPS variant arms no timer either. *)
Theorem engine_failure_arms_no_timer (j : job) (clock : Z) (evs : list event)
    (e : string) (st : state) :
  let token := job_token j in
  let before := after_hooks token evs st in
  let st' := download_worker j clock (EngineRun evs (Raised e)) st in
  DOWNLOADS st' !! token
  = (λ i, Info (info_token i) (info_ip i) (info_video_id i) (info_format i)
               Error (info_percent i) (info_speed i) (info_eta i)
               (info_downloaded_bytes i) (info_total_bytes i) (info_started i)
               (info_file i) (Some e)) <$> DOWNLOADS before !! token
  ∧ (∀ token', token' ≠ token →
       DOWNLOADS st' !! token' = DOWNLOADS before !! token')
  ∧ TIMERS st' = TIMERS st
  ∧ FILES st' = FILES st
  ∧ (is_Some (DOWNLOADS st !! token) → ∀ t,
       due_by t (ExpireToken token) (TIMERS st) = false →
       status_in token (advance t st') = Some Error)
  ∧ TIMERS (Certbot.download_worker j clock (EngineRun evs (Raised e)) st).2
    = TIMERS st.
Proof.
  intros token before st'.
  assert (st' = set_downloads (mark_error token e) before) as Hst.
  { subst st'. by rewrite download_worker_eq. }
  destruct (after_hooks_frame token evs st) as (_ & Ht & _ & Hf & _ & Hlive).
  fold before in Ht, Hf, Hlive.
  assert (TIMERS st' = TIMERS st) as Htimers by (by rewrite Hst).
  split; [|split; [|split; [|split; [|split]]]].
  - rewrite Hst. cbn [set_downloads DOWNLOADS]. apply mark_error_lookup.
  - intros token' Hne. rewrite Hst. cbn [set_downloads DOWNLOADS].
    unfold mark_error. destruct (DOWNLOADS before !! token); [|done].
    by rewrite lookup_insert_ne.
  - done.
  - by rewrite Hst.
  - intros Hsome t Hdue. unfold status_in. rewrite advance_downloads.
    rewrite Htimers, Hdue. rewrite Hst. cbn [set_downloads DOWNLOADS].
    rewrite mark_error_lookup. by destruct (Hlive Hsome) as [i ->].
  - rewrite certbot_download_worker_eq. cbn [run_result run_events].
    fold token before. unfold Certbot.finish.
    by destruct (DOWNLOADS before !! token).
Qed.

Lemma engine_failure_arms_no_timer_witness :
  TIMERS (download_worker job_a 0 run_failure state_a) = []
  ∧ status_in token_a (advance 1000000 (download_worker job_a 0 run_failure state_a))
    = Some Error.
Proof.
  pose proof (engine_failure_arms_no_timer job_a 0 (run_events run_failure)
                "HTTP Error 403: Forbidden" state_a)
    as (_ & _ & Ht & _ & Hs & _).
  split; [exact Ht|].
  exact (Hs ltac:(vm_compute; eauto) 1000000 eq_refl).
Defined.

(** C3, as stated, fails: after the failure no timer is pending, and one
    retention window later, as at any later instant, the error record is
    still in the registry. *)
Lemma error_record_is_never_expired :
  TIMERS (download_worker job_a 0 run_failure state_a) = []
  ∧ due_by (0 + TOKEN_EXPIRE_SECONDS) (ExpireToken token_a)
      (TIMERS (download_worker job_a 0 run_failure state_a)) = false
  ∧ (λ i, (info_status i, info_error i))
      <$> DOWNLOADS (advance (0 + TOKEN_EXPIRE_SECONDS)
                       (download_worker job_a 0 run_failure state_a))
          !! token_a
    = Some (Error, Some "HTTP Error 403: Forbidden").
Proof. vm_compute. repeat split; reflexivity. Qed.

(** The final writes of the HTTPS variant index [DOWNLOADS[token]] without
    the guard that [app.py] has: on a registry that does not hold the
    token they would end the worker with an uncaught [KeyError].  No run of
    the program takes a worker there: see [run_system_accounted]. *)
Theorem certbot_finish_purged_raises :
  DOWNLOADS state_purged !! token_a = None
  ∧ Certbot.finish token_a "mp4" 0 Completed state_purged
    = (Certbot.Uncaught "KeyError", state_purged)
  ∧ Certbot.finish token_a "mp4" 0 (Raised "HTTP Error 403: Forbidden")
      state_purged
    = (Certbot.Uncaught "KeyError", state_purged)
  ∧ set_downloads (progress_hook token_a event_downloading) state_purged
    = state_purged.
Proof. vm_compute. repeat split; reflexivity. Qed.


Lemma due_by_two t a timers da1 da2 :
  due_by t a (timers ++ [da1; da2])
  = due_by t a timers
    || ((da1.1 <=? t) && bool_decide (da1.2 = a))
    || ((da2.1 <=? t) && bool_decide (da2.2 = a)).
Proof.
  rewrite due_by_app. unfold due_by at 2. cbn [existsb].
  by rewrite orb_false_r, orb_assoc.
Qed.




(** ** Status order *)

Lemma hook_update_status d i :
  info_status (hook_update d i) = hook_status d (info_status i).
Proof.
  unfold hook_update, hook_status.
  destruct (bool_decide (d_status d = "downloading")); [done|].
  by destruct (bool_decide (d_status d = "finished")).
Qed.

Lemma finish_status token fmt clock r st i :
  DOWNLOADS st !! token = Some i →
  status_in token (finish token fmt clock r st) = Some (final_status r).
Proof.
  intros Hi. unfold status_in.
  destruct r; cbn [finish schedule_delete schedule_token_expire set_downloads
                   DOWNLOADS].
  - by rewrite mark_done_lookup, Hi.
  - by rewrite mark_error_lookup, Hi.
Qed.

(** What an observer reads while a worker runs undisturbed. *)
Lemma observed_worker token fmt clock r evs : ∀ st i,
  DOWNLOADS st !! token = Some i →
  observed token (states_after token fmt clock
                    (worker_steps (EngineRun evs r)) st)
  = status_trace evs r (info_status i).
Proof.
  unfold worker_steps. cbn [run_events run_result].
  induction evs as [|d evs IH]; intros st i Hi.
  - cbn [map app states_after worker_step observed omap list_omap].
    unfold observed. cbn [omap list_omap].
    by rewrite (finish_status _ _ _ _ _ _ Hi).
  - cbn [map app states_after worker_step status_trace].
    unfold observed. cbn [omap list_omap].
    assert (DOWNLOADS (set_downloads (progress_hook token d) st) !! token
            = Some (hook_update d i)) as Hi'.
    { cbn [set_downloads DOWNLOADS].
      rewrite (progress_hook_live _ _ _ _ Hi). apply lookup_insert_eq. }
    unfold status_in at 1. rewrite Hi'. cbn [fmap option_fmap option_map].
    rewrite hook_update_status. f_equal.
    rewrite <- hook_update_status. by apply IH.
Qed.

Lemma phase_ordered_cons d evs :
  phase_ordered (d :: evs)
  = (if bool_decide (d_status d = "finished")
     then forallb not_downloading evs else true)
    && phase_ordered evs.
Proof. done. Qed.

(** The trace regresses exactly at a ["downloading"] event that finds the
    record at processing. *)
Lemma nondecreasing_status_trace r evs : ∀ s,
  rank s ≤ 2 →
  nondecreasing (s :: status_trace evs r s)
  = phase_ordered evs
    && (if bool_decide (s = Processing) then forallb not_downloading evs
        else true).
Proof.
  induction evs as [|d evs IH]; intros s Hs.
  - cbn [status_trace nondecreasing phase_ordered forallb].
    assert ((rank s <=? rank (final_status r)) = true) as ->.
    { apply Z.leb_le. destruct r; cbn; lia. }
    by destruct (bool_decide (s = Processing)).
  - cbn [status_trace]. set (s' := hook_status d s).
    assert (rank s' ≤ 2) as Hs'.
    { subst s'. unfold hook_status.
      repeat (destruct (bool_decide _)); cbn; lia. }
    change (nondecreasing (s :: s' :: status_trace evs r s'))
      with ((rank s <=? rank s') && nondecreasing (s' :: status_trace evs r s')).
    rewrite (IH s' Hs'), phase_ordered_cons. cbn [forallb].
    subst s'. unfold hook_status, not_downloading at 3.
    destruct (bool_decide (d_status d = "downloading")) eqn:Hd.
    + apply bool_decide_eq_true in Hd.
      assert (d_status d ≠ "finished") as Hnf.
      { rewrite Hd. discriminate. }
      rewrite (bool_decide_eq_false_2 _ Hnf).
      cbn [negb andb]. rewrite andb_true_r.
      destruct s; cbn in Hs |- *; try lia; by destruct (phase_ordered evs).
    + destruct (bool_decide (d_status d = "finished")) eqn:Hf.
      * cbn [negb andb].
        assert ((rank s <=? rank Processing) = true) as ->
          by (apply Z.leb_le; cbn; lia).
        cbn [andb]. destruct (bool_decide (s = Processing));
          destruct (forallb not_downloading evs), (phase_ordered evs); done.
      * cbn [negb andb]. rewrite Z.leb_refl. done.
Qed.

(** C2 (amended).  A progress hook writes the status its event names,
    downloading or processing, whatever the record holds, and no hook
    writes queued, done or error.  So for a job that starts queued, the
    statuses an observer reads while the worker runs (before the first
    step, and after each hook and after the final write) are non-decreasing
    along queued, downloading, processing, done or error exactly when the
    engine emits no ["downloading"] event after a ["finished"] event; a
    ["downloading"] event that finds the record at processing sets it back
    to downloading. *)
Theorem status_order_follows_events (token fmt : string) (clock : Z)
    (run : engine_run) (st : state) (i : info) :
  DOWNLOADS st !! token = Some i → info_status i = Queued →
  nondecreasing
    (observed token
       (st :: states_after token fmt clock (worker_steps run) st))
  = phase_ordered (run_events run)
  ∧ (∀ d i0, info_status (hook_update d i0) = Downloading
             ∨ info_status (hook_update d i0) = Processing
             ∨ info_status (hook_update d i0) = info_status i0)
  ∧ (∀ d i0, d_status d = "downloading" →
             info_status (hook_update d i0) = Downloading).
Proof.
  intros Hi Hq. split; [|split].
  - destruct run as [evs r]. cbn [run_events].
    unfold observed. cbn [omap list_omap]. unfold status_in at 1.
    rewrite Hi. cbn [fmap option_fmap option_map].
    fold (observed token
            (states_after token fmt clock (worker_steps (EngineRun evs r)) st)).
    rewrite (observed_worker _ _ _ _ _ _ _ Hi), Hq.
    rewrite nondecreasing_status_trace by (cbn; lia).
    rewrite bool_decide_eq_false_2 by done. apply andb_true_r.
  - intros d i0. rewrite hook_update_status. unfold hook_status.
    destruct (bool_decide (d_status d = "downloading")); [by left|].
    destruct (bool_decide (d_status d = "finished")); [right; by left|].
    right; by right.
  - intros d i0 Hd. rewrite hook_update_status. unfold hook_status.
    by rewrite bool_decide_eq_true_2.
Qed.

Lemma status_order_follows_events_witness :
  observed token_a
    (state_a :: states_after token_a "mp4" 0 (worker_steps run_one_stream)
                  state_a)
  = [Queued; Downloading; Processing; Done]
  ∧ nondecreasing
      (observed token_a
         (state_a :: states_after token_a "mp4" 0 (worker_steps run_one_stream)
                       state_a))
    = true.
Proof.
  split; [vm_compute; reflexivity|].
  exact (proj1 (status_order_follows_events token_a "mp4" 0 run_one_stream
                  state_a
                  (new_info token_a "10.0.0.1" "abc123" "mp4" (env_now env_a))
                  ltac:(vm_compute; reflexivity) eq_refl)).
Defined.

(** C2, as stated, fails: the engine fetches two streams, and the second
    stream's first ["downloading"] event takes the record from processing
    back to downloading. *)
Lemma status_regresses_on_second_stream :
  observed token_a
    (state_a :: states_after token_a "mp4" 0 (worker_steps run_two_streams)
                  state_a)
  = [Queued; Downloading; Processing; Downloading; Processing; Done]
  ∧ nondecreasing
      (observed token_a
         (state_a :: states_after token_a "mp4" 0
                       (worker_steps run_two_streams) state_a))
    = false
  ∧ (rank Downloading <? rank Processing) = true.
Proof. vm_compute. repeat split; reflexivity. Qed.

(** ** Further properties *)

(** X1.  In [app.py] every registry write of a worker is guarded: for a
    token that is no longer registered, a progress hook leaves the whole
    state as it is, and the final write, after success or after failure,
    leaves the registry as it is. *)
Theorem purged_token_is_left_alone (token fmt : string) (clock : Z) (d : event)
    (r : engine_result) (st : state) :
  DOWNLOADS st !! token = None →
  set_downloads (progress_hook token d) st = st
  ∧ DOWNLOADS (finish token fmt clock r st) = DOWNLOADS st.
Proof. apply purged_token_writes_are_noops. Qed.

Lemma purged_token_is_left_alone_witness :
  set_downloads (progress_hook token_a event_finished) state_purged
  = state_purged
  ∧ DOWNLOADS (finish token_a "mp4" 0 Completed state_purged)
    = DOWNLOADS state_purged.
Proof.
  exact (purged_token_is_left_alone token_a "mp4" 0 event_finished Completed
           state_purged ltac:(vm_compute; reflexivity)).
Defined.

(** X2.  Once [TOKEN_EXPIRE_SECONDS] have passed since a job completed,
    its token is out of the registry: [progress] answers NotFound and
    [download] answers Conflict (not ready or expired), for every caller. *)
Theorem expired_token_is_gone (token fmt : string) (clock t : Z) (st : state) :
  clock + TOKEN_EXPIRE_SECONDS ≤ t → token ≠ "" →
  let st' := advance t (finish token fmt clock Completed st) in
  DOWNLOADS st' !! token = None
  ∧ ∀ ip now,
      http_status (progress (Some token) ip now (DOWNLOADS st')) = NotFound
      ∧ http_status (download (Some token) ip (DOWNLOADS st')) = Conflict.
Proof.
  intros Ht Hne st'.
  assert (DOWNLOADS st' !! token = None) as Hgone.
  { subst st'. rewrite advance_downloads.
    assert (TIMERS (finish token fmt clock Completed st)
            = TIMERS st
              ++ [(clock + TOKEN_EXPIRE_SECONDS, ExpireToken token);
                  (clock + FILE_DELETE_SECONDS,
                   DeleteFile (output_path token fmt))]) as ->.
    { cbn. by rewrite <- app_assoc. }
    rewrite due_by_two. cbn [fst snd].
    rewrite (proj2 (Z.leb_le _ _) Ht), bool_decide_eq_true_2 by done.
    cbn [andb]. by rewrite orb_true_r. }
  split; [done|]. intros ip now. unfold progress, download.
  by rewrite (nonempty_of_Some _ Hne), Hgone.
Qed.

Lemma expired_token_is_gone_witness :
  DOWNLOADS (advance 1300 (finish token_a "mp4" 1000 Completed state_a))
    !! token_a = None
  ∧ http_status
      (progress (Some token_a) "10.0.0.1" (env_now env_a)
         (DOWNLOADS (advance 1300 (finish token_a "mp4" 1000 Completed state_a))))
    = NotFound.
Proof.
  pose proof (expired_token_is_gone token_a "mp4" 1000 1300 state_a
                ltac:(vm_compute; discriminate) ltac:(discriminate))
    as [Hg Hp].
  split; [exact Hg|]. exact (proj1 (Hp "10.0.0.1" (env_now env_a))).
Defined.

(** X3.  A call of [check_ip_limit] reads and writes the entry of its own
    client only. *)
Theorem check_ip_limit_other_clients (ip ip' today : string)
    (limits : gmap string entry) :
  ip ≠ ip' → (check_ip_limit ip today limits).2 !! ip' = limits !! ip'.
Proof. apply check_ip_limit_frame. Qed.

Lemma check_ip_limit_other_clients_witness :
  (check_ip_limit "10.0.0.2" "2024-01-01" (IP_LIMITS state_a)).2 !! "10.0.0.1"
  = Some (Entry "2024-01-01" 1).
Proof.
  exact (check_ip_limit_other_clients "10.0.0.2" "10.0.0.1" "2024-01-01"
           (IP_LIMITS state_a) ltac:(discriminate)).
Defined.

Lemma string_app_assoc (s1 s2 s3 : string) :
  (s1 +:+ s2) +:+ s3 = s1 +:+ s2 +:+ s3.
Proof.
  induction s1 as [|c s1 IH]; [done|].
  change (String c ((s1 +:+ s2) +:+ s3) = String c (s1 +:+ s2 +:+ s3)).
  by rewrite IH.
Qed.

(** X4.  [build_format] pairs container mp4 with audio m4a and every other
    container with video and audio webm; a resolution, when given, caps the
    height. *)
Theorem build_format_pairs (res : option string) (audio fmt : string) :
  let height := match nonempty res with
                | Some r => "[height<=" +:+ r +:+ "]"
                | None => ""
                end in
  build_format res audio "mp4"
  = "bestvideo[ext=mp4]" +:+ height +:+ "+bestaudio[ext=m4a][abr<="
      +:+ audio +:+ "]/best"
  ∧ (fmt ≠ "mp4" →
     build_format res audio fmt
     = "bestvideo[ext=webm]" +:+ height +:+ "+bestaudio[ext=webm][abr<="
         +:+ audio +:+ "]/best").
Proof.
  intros height. subst height. unfold build_format. split.
  - rewrite !bool_decide_eq_true_2 by done.
    destruct (nonempty res) as [r|]; by rewrite !string_app_assoc.
  - intros Hf. rewrite !bool_decide_eq_false_2 by done.
    destruct (nonempty res) as [r|]; by rewrite !string_app_assoc.
Qed.

Lemma build_format_pairs_witness :
  build_format (Some "720") "192" "webm"
  = "bestvideo[ext=webm][height<=720]+bestaudio[ext=webm][abr<=192]/best".
Proof.
  exact (proj2 (build_format_pairs (Some "720") "192" "webm")
           ltac:(discriminate)).
Defined.

(** X5.  One turn of the not-json polling loop: a token that is gone ends
    the wait with 410, an error record with 500, a done record with its
    file; a record that is queued, downloading or processing makes the
    loop sleep and poll again.  The loop reads the registry and never
    writes it. *)
Theorem poll_outcomes (token : string) (downloads : gmap string info) :
  (downloads !! token = None → poll token downloads = Some (abort Gone))
  ∧ (∀ i, downloads !! token = Some i →
       (info_status i = Error →
        poll token downloads = Some (abort ServerError))
       ∧ (∀ path, info_status i = Done → info_file i = Some path →
            path ≠ "" → poll token downloads = Some (send_file (Some path)))
       ∧ (rank (info_status i) ≤ 2 → poll token downloads = None)).
Proof.
  unfold poll. split.
  - by intros ->.
  - intros i ->. split; [|split].
    + intros ->. by destruct (nonempty (info_file i)).
    + intros path -> -> Hne. by rewrite (nonempty_of_Some _ Hne).
    + intros Hr. destruct (info_status i); cbn in Hr; try lia;
        by destruct (nonempty (info_file i)).
Qed.

Lemma poll_outcomes_witness :
  poll token_a (DOWNLOADS state_a) = None
  ∧ poll token_a (DOWNLOADS state_purged) = Some (abort Gone).
Proof.
  pose proof (poll_outcomes token_a (DOWNLOADS state_a)) as [_ Ha].
  pose proof (poll_outcomes token_a (DOWNLOADS state_purged)) as [Hp _].
  split.
  - refine (proj2 (proj2 (Ha (new_info token_a "10.0.0.1" "abc123" "mp4"
                                (env_now env_a)) _)) _).
    + vm_compute. reflexivity.
    + vm_compute. discriminate.
  - apply Hp. vm_compute. reflexivity.
Defined.

(** ** A submission from acceptance to retrieval *)

(** What [watch] has done when it accepts. *)
Lemma watch_accepted rq env st token :
  accepted_token (watch rq env st).1 = Some token →
  ∃ video_id,
    let ip := remote_addr rq in
    let fmt := lower (default "mp4" (arg_format rq)) in
    nonempty (arg_v rq) = Some video_id
    ∧ (check_ip_limit ip (env_today env) (IP_LIMITS st)).1 = true
    ∧ (fmt = "mp4" ∨ fmt = "webm")
    ∧ token = default (uuid4_hex (env_urandom env)) (nonempty (arg_token rq))
    ∧ token ≠ ""
    ∧ DOWNLOADS st !! token = None
    ∧ (watch rq env st).2
      = State (<[token := new_info token ip video_id fmt (env_now env)]>
                 (DOWNLOADS st))
              (check_ip_limit ip (env_today env) (IP_LIMITS st)).2
              (TIMERS st)
              (SUBMITTED st
               ++ [Job token video_id (arg_res rq)
                     (default DEFAULT_AUDIO_BITRATE (arg_audio rq)) fmt ip])
              (FILES st).
Proof.
  destruct (nonempty (arg_v rq)) as [video_id|] eqn:Hv.
  - destruct (check_ip_limit (remote_addr rq) (env_today env) (IP_LIMITS st)).1
      eqn:Hok.
    + rewrite (watch_admitted _ _ _ _ Hv Hok). cbv zeta.
      destruct (negb _) eqn:Hfmt.
      { cbn [fst]. destruct (arg_not_json rq); discriminate. }
      destruct (DOWNLOADS st !! _) eqn:Hlive.
      { cbn [fst]. destruct (arg_not_json rq); discriminate. }
      cbn [fst snd]. intros Ht.
      assert (token = default (uuid4_hex (env_urandom env))
                              (nonempty (arg_token rq))) as ->.
      { destruct (arg_not_json rq); by inversion Ht. }
      exists video_id. split; [done|]. split; [done|]. split.
      { apply negb_false_iff, orb_true_iff in Hfmt as [Hm|Hw].
        - left. by apply bool_decide_eq_true in Hm.
        - right. by apply bool_decide_eq_true in Hw. }
      split; [done|]. split; [apply watch_token_nonempty|]. by split.
    + rewrite (watch_rate_limited _ _ _ _ Hv Hok). cbn [fst].
      destruct (arg_not_json rq); discriminate.
  - rewrite (watch_missing_v _ _ _ Hv). cbn [fst].
    destruct (arg_not_json rq); discriminate.
Qed.

Lemma hook_update_identity d i :
  identity (hook_update d i) = identity i
  ∧ info_file (hook_update d i) = info_file i
  ∧ info_error (hook_update d i) = info_error i.
Proof.
  unfold hook_update.
  destruct (bool_decide (d_status d = "downloading")); [done|].
  by destruct (bool_decide (d_status d = "finished")).
Qed.

(** The record of a registered token after the hooks of a run. *)
Lemma after_hooks_record token evs : ∀ st i,
  DOWNLOADS st !! token = Some i →
  ∃ i', DOWNLOADS (after_hooks token evs st) !! token = Some i'
        ∧ identity i' = identity i
        ∧ info_file i' = info_file i
        ∧ info_error i' = info_error i.
Proof.
  induction evs as [|d evs IH]; intros st i Hi; [by exists i|].
  rewrite after_hooks_cons.
  destruct (IH (set_downloads (progress_hook token d) st) (hook_update d i))
    as (i' & Hi' & Hid & Hf & He).
  { cbn [set_downloads DOWNLOADS]. rewrite (progress_hook_live _ _ _ _ Hi).
    apply lookup_insert_eq. }
  destruct (hook_update_identity d i) as (Hid0 & Hf0 & He0).
  exists i'. split; [done|]. by rewrite Hid, Hf, He.
Qed.

Lemma output_path_nonempty token fmt : output_path token fmt ≠ "".
Proof.
  unfold output_path, path_join.
  destruct (token +:+ "." +:+ fmt) as [|c s] eqn:Hs; [done|].
  destruct (decide (c = "/"%char)) as [->|Hc]; [done|].
  assert (match String c s with
          | String "/" _ => String c s
          | _ => DOWNLOAD_DIR +:+ "/" +:+ String c s
          end = DOWNLOAD_DIR +:+ "/" +:+ String c s) as ->; [|done].
  destruct c as [[] [] [] [] [] [] [] []]; done.
Qed.

(** The record of a registered token when its worker has ended. *)
Lemma download_worker_record j clock run st i :
  DOWNLOADS st !! job_token j = Some i →
  ∃ i', DOWNLOADS (download_worker j clock run st) !! job_token j = Some i'
        ∧ identity i' = identity i
        ∧ info_status i' = final_status (run_result run)
        ∧ info_file i'
          = match run_result run with
            | Completed => Some (output_path (job_token j) (job_fmt j))
            | Raised _ => info_file i
            end
        ∧ info_error i'
          = match run_result run with
            | Completed => info_error i
            | Raised e => Some e
            end.
Proof.
  intros Hi. rewrite download_worker_eq.
  destruct (after_hooks_record (job_token j) (run_events run) st i Hi)
    as (i1 & Hi1 & Hid & Hf & He).
  destruct (run_result run) as [|e];
    cbn [finish schedule_delete schedule_token_expire set_downloads DOWNLOADS].
  - rewrite mark_done_lookup, Hi1. eexists. split; [done|].
    cbn. unfold identity in *. by inversion Hid.
  - rewrite mark_error_lookup, Hi1. eexists. split; [done|].
    cbn. unfold identity in *. by inversion Hid.
Qed.

(** The worker arms its timers after the ones that were pending, and only
    when the engine has returned. *)
Lemma download_worker_timers j clock run st :
  TIMERS (download_worker j clock run st)
  = TIMERS st
    ++ match run_result run with
       | Completed =>
           [(clock + TOKEN_EXPIRE_SECONDS, ExpireToken (job_token j));
            (clock + FILE_DELETE_SECONDS,
             DeleteFile (output_path (job_token j) (job_fmt j)))]
       | Raised _ => []
       end.
Proof.
  rewrite download_worker_eq.
  destruct (after_hooks_frame (job_token j) (run_events run) st)
    as (_ & Ht & _).
  destruct (run_result run); cbn; rewrite Ht.
  - by rewrite <- app_assoc.
  - by rewrite app_nil_r.
Qed.

(** X6.  From acceptance to retrieval.  When [watch] accepts a submission
    it hands the executor one job for the caller under the returned token;
    when that job's engine returns, whatever progress events it emitted,
    the caller's [download] sends the file [output_path token fmt], the
    polling loop sends the same file, and [progress] reports status done
    and ready; and the record stays retrievable at every instant before
    [clock + TOKEN_EXPIRE_SECONDS] (no removal of the token being pending
    from before). *)
Theorem completed_job_is_retrievable (rq : request) (env : environment)
    (st : state) (token : string) (clock : Z) (evs : list event) :
  accepted_token (watch rq env st).1 = Some token →
  let ip := remote_addr rq in
  let st1 := (watch rq env st).2 in
  ∃ j, SUBMITTED st1 = SUBMITTED st ++ [j]
    ∧ job_token j = token ∧ job_ip j = ip
    ∧ (job_fmt j = "mp4" ∨ job_fmt j = "webm")
    ∧ let st2 := download_worker j clock (EngineRun evs Completed) st1 in
      let path := output_path token (job_fmt j) in
      download (Some token) ip (DOWNLOADS st2) = send_file (Some path)
      ∧ poll token (DOWNLOADS st2) = Some (send_file (Some path))
      ∧ (∀ now, ∃ body,
           progress (Some token) ip now (DOWNLOADS st2) = progress_json body
           ∧ body_status body = "done" ∧ body_ready body = true
           ∧ body_error body = None)
      ∧ (∀ t, t < clock + TOKEN_EXPIRE_SECONDS →
           due_by t (ExpireToken token) (TIMERS st) = false →
           download (Some token) ip (DOWNLOADS (advance t st2))
           = send_file (Some path)).
Proof.
  intros Hacc ip st1.
  destruct (watch_accepted _ _ _ _ Hacc)
    as (video_id & Hv & Hok & Hfmt & Htok & Hne & Hfree & Hst1).
  cbv zeta in *. fold ip in Hst1, Hok.
  set (fmt := lower (default "mp4" (arg_format rq))) in *.
  set (j := Job token video_id (arg_res rq)
              (default DEFAULT_AUDIO_BITRATE (arg_audio rq)) fmt ip).
  exists j. subst st1. rewrite Hst1. cbn [SUBMITTED].
  split; [done|]. split; [done|]. split; [done|]. split; [done|].
  set (st1 := State _ _ _ _ _).
  assert (DOWNLOADS st1 !! job_token j
          = Some (new_info token ip video_id fmt (env_now env))) as Hrec.
  { cbn. apply lookup_insert_eq. }
  destruct (download_worker_record j clock (EngineRun evs Completed) st1 _ Hrec)
    as (i' & Hi' & Hid & Hs & Hf & He).
  cbn [run_result job_token job_fmt j] in Hi', Hs, Hf, He.
  assert (info_ip i' = ip) as Hid2.
  { unfold identity in Hid. by inversion Hid. }
  cbn [job_fmt j final_status] in *.
  assert (download (Some token) ip
            (DOWNLOADS (download_worker j clock (EngineRun evs Completed) st1))
          = send_file (Some (output_path token fmt))) as Hdl.
  { unfold download. rewrite (nonempty_of_Some _ Hne), Hi', Hs, Hid2.
    rewrite !bool_decide_eq_true_2 by done. cbn [negb]. by rewrite Hf. }
  cbv zeta. cbn [job_fmt j]. split; [exact Hdl|]. split; [|split].
  - unfold poll. rewrite Hi', Hs, Hf.
    by rewrite (nonempty_of_Some _ (output_path_nonempty token fmt)).
  - intros now. eexists. unfold progress.
    rewrite (nonempty_of_Some _ Hne), Hi', Hid2.
    rewrite bool_decide_eq_true_2 by done. cbn [negb].
    split; [reflexivity|]. cbn. rewrite Hs, He.
    by rewrite bool_decide_eq_true_2.
  - intros t Ht Hdue.
    assert (DOWNLOADS (advance t (download_worker j clock
                                    (EngineRun evs Completed) st1)) !! token
            = Some i') as Hkeep.
    { rewrite advance_downloads, download_worker_timers.
      cbn [run_result job_token job_fmt j]. rewrite due_by_two.
      cbn [fst snd TIMERS st1]. rewrite Hdue.
      rewrite (proj2 (Z.leb_gt _ _)) by lia.
      rewrite (bool_decide_eq_false_2 (DeleteFile _ = ExpireToken _)) by done.
      cbn [andb orb]. by rewrite andb_false_r. }
    rewrite <- Hdl. unfold download.
    by rewrite (nonempty_of_Some _ Hne), Hkeep, Hi'.
Qed.

Lemma completed_job_is_retrievable_witness :
  ∃ j, SUBMITTED state_a = [j]
    ∧ download (Some token_a) "10.0.0.1"
        (DOWNLOADS (download_worker j 1000 run_two_streams state_a))
      = send_file (Some "downloads/00000000000040008000000000000000.mp4").
Proof.
  destruct (completed_job_is_retrievable request_a env_a initial_state token_a
              1000 (run_events run_two_streams) eq_refl)
    as (j & Hs & _ & _ & _ & Hd & _).
  exists j. split; [exact Hs|].
  assert (j = job_a) as -> by (by inversion Hs).
  exact Hd.
Defined.

(** X7.  From acceptance to failure.  When the engine of an accepted job
    raises, whatever progress events it emitted before, the caller's
    [progress] reports status error with the description of the failure and
    not ready, [download] answers Conflict, the polling loop ends with 500;
    and this stays so at every later instant (no removal of the token being
    pending from before): the failed job is never retrievable and its token
    is never free again. *)
Theorem failed_job_stays_failed (rq : request) (env : environment)
    (st : state) (token e : string) (clock : Z) (evs : list event) :
  accepted_token (watch rq env st).1 = Some token →
  let ip := remote_addr rq in
  let st1 := (watch rq env st).2 in
  ∃ j, SUBMITTED st1 = SUBMITTED st ++ [j]
    ∧ job_token j = token
    ∧ let st2 := download_worker j clock (EngineRun evs (Raised e)) st1 in
      ∀ t, due_by t (ExpireToken token) (TIMERS st) = false →
        let downloads := DOWNLOADS (advance t st2) in
        http_status (download (Some token) ip downloads) = Conflict
        ∧ poll token downloads = Some (abort ServerError)
        ∧ (∀ now, ∃ body,
             progress (Some token) ip now downloads = progress_json body
             ∧ body_status body = "error" ∧ body_ready body = false
             ∧ body_error body = Some e)
        ∧ (∀ rq' env', arg_token rq' = Some token →
             accepted_token (watch rq' env' (advance t st2)).1 = None).
Proof.
  intros Hacc ip st1.
  destruct (watch_accepted _ _ _ _ Hacc)
    as (video_id & Hv & Hok & Hfmt & Htok & Hne & Hfree & Hst1).
  cbv zeta in *. fold ip in Hst1, Hok.
  set (fmt := lower (default "mp4" (arg_format rq))) in *.
  set (j := Job token video_id (arg_res rq)
              (default DEFAULT_AUDIO_BITRATE (arg_audio rq)) fmt ip).
  exists j. subst st1. rewrite Hst1. cbn [SUBMITTED].
  split; [done|]. split; [done|].
  set (st1 := State _ _ _ _ _).
  assert (DOWNLOADS st1 !! job_token j
          = Some (new_info token ip video_id fmt (env_now env))) as Hrec.
  { cbn. apply lookup_insert_eq. }
  destruct (download_worker_record j clock (EngineRun evs (Raised e)) st1 _ Hrec)
    as (i' & Hi' & Hid & Hs & Hf & He).
  cbn [run_result job_token job_fmt j final_status] in Hi', Hs, Hf, He.
  assert (info_ip i' = ip) as Hip.
  { unfold identity in Hid. by inversion Hid. }
  intros t Hdue.
  assert (DOWNLOADS (advance t (download_worker j clock
                                  (EngineRun evs (Raised e)) st1)) !! token
          = Some i') as Hkeep.
  { rewrite advance_downloads, download_worker_timers.
    cbn [run_result]. rewrite app_nil_r. cbn [TIMERS st1]. by rewrite Hdue. }
  cbv zeta. split; [|split; [|split]].
  - unfold download. rewrite (nonempty_of_Some _ Hne), Hkeep, Hs.
    by rewrite bool_decide_eq_false_2.
  - unfold poll. rewrite Hkeep, Hs. by destruct (nonempty (info_file i')).
  - intros now. eexists. unfold progress.
    rewrite (nonempty_of_Some _ Hne), Hkeep, Hip.
    rewrite bool_decide_eq_true_2 by done. cbn [negb].
    split; [reflexivity|]. cbn. rewrite Hs, He.
    by rewrite bool_decide_eq_false_2.
  - intros rq' env' Htok'.
    set (st3 := advance t _) in *.
    destruct (accepted_token (watch rq' env' st3).1) as [token'|] eqn:Hacc';
      [|done].
    destruct (watch_accepted _ _ _ _ Hacc')
      as (_ & _ & _ & _ & Htoken' & _ & Hfree' & _).
    rewrite Htok', (nonempty_of_Some _ Hne) in Htoken'. cbn in Htoken'.
    subst token'. by rewrite Hkeep in Hfree'.
Qed.

Lemma failed_job_stays_failed_witness :
  ∃ j, SUBMITTED state_a = [j]
    ∧ poll token_a
        (DOWNLOADS (advance 1000000 (download_worker j 0 run_failure state_a)))
      = Some (abort ServerError).
Proof.
  destruct (failed_job_stays_failed request_a env_a initial_state token_a
              "HTTP Error 403: Forbidden" 0 (run_events run_failure) eq_refl)
    as (j & Hs & _ & H).
  exists j. split; [exact Hs|].
  exact (proj1 (proj2 (H 1000000 eq_refl))).
Defined.

(** ** What the registry keeps *)

Lemma watch_keeps_records rq env st k i :
  DOWNLOADS st !! k = Some i → DOWNLOADS (watch rq env st).2 !! k = Some i.
Proof.
  intros Hk.
  destruct (nonempty (arg_v rq)) as [video_id|] eqn:Hv.
  - destruct (check_ip_limit (remote_addr rq) (env_today env) (IP_LIMITS st)).1
      eqn:Hok.
    + rewrite (watch_admitted _ _ _ _ Hv Hok). cbv zeta.
      destruct (negb _); [done|].
      destruct (DOWNLOADS st !! default _ _) eqn:Hlive; [done|].
      cbn [snd DOWNLOADS]. rewrite lookup_insert_ne; [done|].
      intros <-. by rewrite Hk in Hlive.
    + by rewrite (watch_rate_limited _ _ _ _ Hv Hok).
  - by rewrite (watch_missing_v _ _ _ Hv).
Qed.

(** A step of the worker of [token] keeps every record, changes none but
    the one of [token], and leaves the identity of that one alone. *)
Lemma worker_step_keeps_identity token fmt clock s st k i :
  DOWNLOADS st !! k = Some i →
  ∃ i', DOWNLOADS (worker_step token fmt clock s st) !! k = Some i'
        ∧ identity i' = identity i
        ∧ (k ≠ token → i' = i).
Proof.
  intros Hk. destruct (decide (k = token)) as [->|Hne].
  - destruct s as [d|[|e]];
      cbn [worker_step finish schedule_delete schedule_token_expire
           set_downloads DOWNLOADS].
    + rewrite (progress_hook_live _ _ _ _ Hk), lookup_insert_eq.
      eexists. split; [done|]. split; [apply hook_update_identity|done].
    + rewrite mark_done_lookup, Hk. eexists. by split.
    + rewrite mark_error_lookup, Hk. eexists. by split.
  - exists i. split; [|done].
    destruct s as [d|[|e]];
      cbn [worker_step finish schedule_delete schedule_token_expire
           set_downloads DOWNLOADS].
    + by rewrite progress_hook_frame.
    + unfold mark_done. destruct (DOWNLOADS st !! token); [|done].
      by rewrite lookup_insert_ne.
    + unfold mark_error. destruct (DOWNLOADS st !! token); [|done].
      by rewrite lookup_insert_ne.
Qed.

(** X8.  Every operation keeps the registry well filed: if every record is
    stored under its own non-empty token and holds container mp4 or webm,
    the same is true after any request to [watch], after any step of any
    worker, and at any later instant; and it is true when the process
    starts.  So the key of a record, its ["token"] field and the token in
    its output path never disagree. *)
Theorem registry_stays_well_filed (st : state) :
  registry_well_filed (DOWNLOADS initial_state)
  ∧ (registry_well_filed (DOWNLOADS st) →
     (∀ rq env, registry_well_filed (DOWNLOADS (watch rq env st).2))
     ∧ (∀ token fmt clock s,
          registry_well_filed (DOWNLOADS (worker_step token fmt clock s st)))
     ∧ (∀ t, registry_well_filed (DOWNLOADS (advance t st)))).
Proof.
  split.
  { intros k i Hk. change (DOWNLOADS initial_state) with (∅ : gmap string info) in Hk.
    by rewrite lookup_empty in Hk. }
  intros Hwf. split; [|split].
  - intros rq env k i Hk.
    destruct (DOWNLOADS st !! k) as [i0|] eqn:Hk0.
    { rewrite (watch_keeps_records rq env st k i0 Hk0) in Hk.
      inversion Hk; subst. by apply Hwf. }
    destruct (accepted_token (watch rq env st).1) as [token|] eqn:Hacc.
    + destruct (watch_accepted _ _ _ _ Hacc)
        as (video_id & _ & _ & Hfmt & _ & Hne & _ & Hst1).
      rewrite Hst1 in Hk. cbn [DOWNLOADS] in Hk.
      destruct (decide (token = k)) as [->|Hkne].
      * rewrite lookup_insert_eq in Hk. inversion Hk; subst. by split.
      * rewrite lookup_insert_ne in Hk by done. by rewrite Hk0 in Hk.
    + exfalso. revert Hacc Hk.
      destruct (nonempty (arg_v rq)) as [video_id|] eqn:Hv.
      * destruct (check_ip_limit (remote_addr rq) (env_today env)
                    (IP_LIMITS st)).1 eqn:Hok.
        -- rewrite (watch_admitted _ _ _ _ Hv Hok). cbv zeta.
           destruct (negb _); [cbn; by rewrite Hk0|].
           destruct (DOWNLOADS st !! default _ _); [cbn; by rewrite Hk0|].
           cbn [fst]. by destruct (arg_not_json rq).
        -- rewrite (watch_rate_limited _ _ _ _ Hv Hok). cbn. by rewrite Hk0.
      * rewrite (watch_missing_v _ _ _ Hv). cbn. by rewrite Hk0.
  - intros token fmt clock s k i' Hk.
    destruct (DOWNLOADS st !! k) as [i|] eqn:Hk0.
    + destruct (worker_step_keeps_identity token fmt clock s st k i Hk0)
        as (i1 & Hi1 & Hid & _).
      rewrite Hi1 in Hk. inversion Hk; subst i1.
      destruct (Hwf k i Hk0) as (Ht & Hne & Hf).
      unfold identity in Hid. inversion Hid as [[Hid1 Hid2 Hid3 Hid4 Hid5]].
      unfold well_filed. by rewrite Hid1, Hid4.
    + exfalso. revert Hk.
      destruct s as [d|[|e]];
        cbn [worker_step finish schedule_delete schedule_token_expire
             set_downloads DOWNLOADS].
      * destruct (decide (token = k)) as [->|Hne].
        -- by rewrite (progress_hook_gone _ _ _ Hk0), Hk0.
        -- by rewrite progress_hook_frame, Hk0.
      * destruct (decide (token = k)) as [->|Hne].
        -- by rewrite mark_done_lookup, Hk0.
        -- unfold mark_done. destruct (DOWNLOADS st !! token);
             [rewrite lookup_insert_ne by done|]; by rewrite Hk0.
      * destruct (decide (token = k)) as [->|Hne].
        -- by rewrite mark_error_lookup, Hk0.
        -- unfold mark_error. destruct (DOWNLOADS st !! token);
             [rewrite lookup_insert_ne by done|]; by rewrite Hk0.
  - intros t k i Hk. rewrite advance_downloads in Hk.
    destruct (due_by _ _ _); [done|]. by apply Hwf.
Qed.

Lemma registry_stays_well_filed_witness :
  registry_well_filed (DOWNLOADS state_a)
  ∧ registry_well_filed
      (DOWNLOADS (worker_step token_a "mp4" 0 (Hook event_downloading) state_a)).
Proof.
  pose proof (registry_stays_well_filed initial_state) as [H0 H].
  destruct (H H0) as (Hw & _).
  split; [exact (Hw request_a env_a)|].
  pose proof (registry_stays_well_filed state_a) as [_ Ha].
  destruct (Ha (Hw request_a env_a)) as (_ & Hs & _).
  exact (Hs token_a "mp4" 0 (Hook event_downloading)).
Defined.

(** X9.  Nothing changes who owns a job.  A record that is registered is
    left exactly as it is by every request to [watch] (a submission never
    replaces a record), is kept by every step of every worker with its
    token, owner, subject, container and start time unchanged, and is not
    changed at all by the worker of another token. *)
Theorem registered_job_keeps_its_identity (st : state) (k : string) (i : info) :
  DOWNLOADS st !! k = Some i →
  (∀ rq env, DOWNLOADS (watch rq env st).2 !! k = Some i)
  ∧ (∀ token fmt clock s,
       ∃ i', DOWNLOADS (worker_step token fmt clock s st) !! k = Some i'
             ∧ identity i' = identity i
             ∧ (k ≠ token → i' = i))
  ∧ (∀ j clock run,
       ∃ i', DOWNLOADS (download_worker j clock run st) !! k = Some i'
             ∧ identity i' = identity i
             ∧ (k ≠ job_token j → i' = i)).
Proof.
  intros Hk. split; [|split].
  - intros rq env. by apply watch_keeps_records.
  - intros token fmt clock s. by apply worker_step_keeps_identity.
  - intros j clock run. unfold download_worker.
    generalize (worker_steps run) as steps. intros steps.
    revert st i Hk. induction steps as [|s steps IH]; intros st i Hk.
    + by exists i.
    + cbn [foldl].
      destruct (worker_step_keeps_identity (job_token j) (job_fmt j) clock s
                  st k i Hk) as (i1 & Hi1 & Hid1 & Hsame1).
      destruct (IH _ _ Hi1) as (i2 & Hi2 & Hid2 & Hsame2).
      exists i2. split; [done|]. split; [by rewrite Hid2|].
      intros Hne. by rewrite (Hsame2 Hne), (Hsame1 Hne).
Qed.

Lemma registered_job_keeps_its_identity_witness :
  DOWNLOADS (watch request_again env_a state_a).2 !! token_a
  = Some (new_info token_a "10.0.0.1" "abc123" "mp4" (env_now env_a)).
Proof.
  exact (proj1 (registered_job_keeps_its_identity state_a token_a
                  (new_info token_a "10.0.0.1" "abc123" "mp4" (env_now env_a))
                  ltac:(vm_compute; reflexivity))
           request_again env_a).
Defined.

Lemma consistent_unfinished i :
  rank (info_status i) ≤ 2 → info_file i = None → info_error i = None →
  consistent i = true.
Proof.
  intros Hr Hf He. unfold consistent. rewrite Hf, He.
  rewrite !bool_decide_eq_true_2; [done| |].
  - split; [by intros [? ?]|]. intros Hs. rewrite Hs in Hr. cbn in Hr. lia.
  - split; [by intros [? ?]|]. intros Hs. rewrite Hs in Hr. cbn in Hr. lia.
Qed.

Lemma hook_update_unfinished d i :
  rank (info_status i) ≤ 2 → rank (info_status (hook_update d i)) ≤ 2.
Proof.
  intros Hr. rewrite hook_update_status. unfold hook_status.
  repeat (destruct (bool_decide _)); cbn; lia.
Qed.

(** X10.  While a worker runs, file and error follow the status.  For a
    record that starts as [watch] creates it (not finished, no file, no
    error), every state an observer can read during the run, and the state
    at its end, shows a file exactly when the status is done and an error
    exactly when the status is error: never done without a file. *)
Theorem file_and_error_follow_status (token fmt : string) (clock : Z)
    (run : engine_run) (st : state) (i : info) :
  DOWNLOADS st !! token = Some i →
  rank (info_status i) ≤ 2 → info_file i = None → info_error i = None →
  Forall (λ st', ∃ i', DOWNLOADS st' !! token = Some i' ∧ consistent i' = true)
         (states_after token fmt clock (worker_steps run) st).
Proof.
  destruct run as [evs r]. unfold worker_steps. cbn [run_events run_result].
  revert st i. induction evs as [|d evs IH]; intros st i Hi Hr Hf He.
  - cbn [map app states_after]. constructor; [|constructor].
    destruct r as [|e];
      cbn [worker_step finish schedule_delete schedule_token_expire
           set_downloads DOWNLOADS].
    + rewrite mark_done_lookup, Hi. eexists. split; [done|].
      unfold consistent. cbn. rewrite He.
      rewrite !bool_decide_eq_true_2; [done| |]; split; try done;
        by intros [? ?].
    + rewrite mark_error_lookup, Hi. eexists. split; [done|].
      unfold consistent. cbn. rewrite Hf.
      rewrite !bool_decide_eq_true_2; [done| |]; split; try done;
        by intros [? ?].
  - cbn [map app states_after].
    assert (DOWNLOADS (worker_step token fmt clock (Hook d) st) !! token
            = Some (hook_update d i)) as Hi'.
    { cbn [worker_step set_downloads DOWNLOADS].
      rewrite (progress_hook_live _ _ _ _ Hi). apply lookup_insert_eq. }
    destruct (hook_update_identity d i) as (_ & Hf' & He').
    pose proof (hook_update_unfinished d i Hr) as Hr'.
    constructor.
    + exists (hook_update d i). split; [done|].
      apply consistent_unfinished; congruence.
    + apply (IH _ (hook_update d i)); congruence.
Qed.

Lemma file_and_error_follow_status_witness :
  Forall (λ st', ∃ i', DOWNLOADS st' !! token_a = Some i' ∧ consistent i' = true)
         (states_after token_a "mp4" 0 (worker_steps run_two_streams) state_a).
Proof.
  apply (file_and_error_follow_status token_a "mp4" 0 run_two_streams state_a
           (new_info token_a "10.0.0.1" "abc123" "mp4" (env_now env_a))).
  - vm_compute. reflexivity.
  - vm_compute. discriminate.
  - reflexivity.
  - reflexivity.
Defined.

(** ** Quota over sequences of requests *)

Lemma check_ip_limit_range ip today limits :
  counts_in_range limits → counts_in_range (check_ip_limit ip today limits).2.
Proof.
  intros Hr ip' e'. unfold check_ip_limit.
  destruct (limits !! ip) as [e|] eqn:He.
  - destruct (negb _); cbn [snd].
    + destruct (decide (ip = ip')) as [->|Hne].
      * rewrite lookup_insert_eq. intros [= <-]. cbn. done.
      * rewrite lookup_insert_ne by done. apply Hr.
    + destruct (MAX_DOWNLOADS_PER_DAY <=? count e) eqn:Hc; cbn [snd];
        [apply Hr|].
      apply Z.leb_gt in Hc. destruct (decide (ip = ip')) as [->|Hne].
      * rewrite lookup_insert_eq. intros [= <-]. cbn.
        pose proof (Hr _ _ He). lia.
      * rewrite lookup_insert_ne by done. apply Hr.
  - cbn [snd]. destruct (decide (ip = ip')) as [->|Hne].
    + rewrite lookup_insert_eq. intros [= <-]. cbn. done.
    + rewrite lookup_insert_ne by done. apply Hr.
Qed.

(** The limits [watch] leaves are those of [check_ip_limit] when the
    request carries a subject, and the old ones otherwise. *)
Lemma watch_limits rq env st :
  IP_LIMITS (watch rq env st).2
  = match nonempty (arg_v rq) with
    | Some _ =>
        (check_ip_limit (remote_addr rq) (env_today env) (IP_LIMITS st)).2
    | None => IP_LIMITS st
    end.
Proof.
  destruct (nonempty (arg_v rq)) as [video_id|] eqn:Hv.
  - destruct (check_ip_limit (remote_addr rq) (env_today env) (IP_LIMITS st)).1
      eqn:Hok.
    + rewrite (watch_admitted _ _ _ _ Hv Hok). cbv zeta.
      destruct (negb _); [done|]. by destruct (DOWNLOADS st !! _).
    + rewrite (watch_rate_limited _ _ _ _ Hv Hok). cbn [snd].
      unfold check_ip_limit in *.
      destruct (IP_LIMITS st !! remote_addr rq) as [e|]; [|done].
      destruct (negb _); [done|]. by destruct (_ <=? _).
  - by rewrite (watch_missing_v _ _ _ Hv).
Qed.

Lemma serve_cons rq env rqs st :
  serve ((rq, env) :: rqs) st
  = ((watch rq env st).1 :: (serve rqs (watch rq env st).2).1,
     (serve rqs (watch rq env st).2).2).
Proof.
  simpl. destruct (watch rq env st) as [o st']. simpl.
  by destruct (serve rqs st') as [os st''].
Qed.

Lemma serve_counts_in_range rqs : ∀ st,
  counts_in_range (IP_LIMITS st) → counts_in_range (IP_LIMITS (serve rqs st).2).
Proof.
  induction rqs as [|[rq env] rqs IH]; intros st Hr; [done|].
  rewrite serve_cons. cbn [snd]. apply IH. rewrite watch_limits.
  destruct (nonempty (arg_v rq)); [by apply check_ip_limit_range|done].
Qed.

(** X11.  No count ever leaves the range from 1 to the cap: if every entry
    of [IP_LIMITS] holds a count between 1 and [MAX_DOWNLOADS_PER_DAY],
    so does every entry after any call of [check_ip_limit] and after any
    sequence of requests to [watch], whatever the clients and the dates;
    the table of a fresh process is in range. *)
Theorem counts_stay_in_range (st : state) :
  counts_in_range (IP_LIMITS initial_state)
  ∧ (counts_in_range (IP_LIMITS st) →
     (∀ ip today,
        counts_in_range (check_ip_limit ip today (IP_LIMITS st)).2)
     ∧ (∀ rqs, counts_in_range (IP_LIMITS (serve rqs st).2))).
Proof.
  split.
  { intros ip e He.
    change (IP_LIMITS initial_state) with (∅ : gmap string entry) in He.
    by rewrite lookup_empty in He. }
  intros Hr. split; [intros ip today; by apply check_ip_limit_range|].
  intros rqs. by apply serve_counts_in_range.
Qed.

Lemma counts_stay_in_range_witness :
  counts_in_range (IP_LIMITS initial_state)
  ∧ counts_in_range
      (IP_LIMITS (serve [(request_a, env_a); (request_avi, env_a)]
                    initial_state).2).
Proof.
  pose proof (counts_stay_in_range initial_state) as [H0 H].
  split; [exact H0|]. exact (proj2 (H H0) _).
Defined.

Lemma check_ip_limit_used caller ip today limits :
  (check_ip_limit caller today limits).1 = true →
  used_today ip today (check_ip_limit caller today limits).2
  = used_today ip today limits + (if bool_decide (caller = ip) then 1 else 0).
Proof.
  intros Hok. unfold used_today at 1 2. case_bool_decide as Hc.
  - subst caller.
    destruct (check_ip_limit_admitted_entry ip today limits Hok) as [-> _].
    cbn [date count]. rewrite bool_decide_eq_true_2 by done.
    destruct (limits !! ip) as [e|]; [|done].
    destruct (bool_decide (date e = today)); lia.
  - rewrite (check_ip_limit_frame caller ip today limits Hc). lia.
Qed.

Lemma check_ip_limit_refused caller today limits :
  (check_ip_limit caller today limits).1 = false →
  (check_ip_limit caller today limits).2 = limits.
Proof.
  unfold check_ip_limit. destruct (limits !! caller) as [e|]; [|done].
  destruct (negb _); [done|]. by destruct (_ <=? _).
Qed.

Lemma jobs_of_snoc ip jobs j :
  length (jobs_of ip (jobs ++ [j]))
  = (length (jobs_of ip jobs) + if bool_decide (job_ip j = ip) then 1 else 0)%nat.
Proof.
  unfold jobs_of. rewrite filter_app, length_app. f_equal.
  case_bool_decide.
  - by rewrite filter_cons_True.
  - by rewrite filter_cons_False.
Qed.

(** One request: the jobs of [ip] grow by no more than its count. *)
Lemma watch_jobs_within_count rq env st ip :
  let st' := (watch rq env st).2 in
  Z.of_nat (length (jobs_of ip (SUBMITTED st')))
  - Z.of_nat (length (jobs_of ip (SUBMITTED st)))
  ≤ used_today ip (env_today env) (IP_LIMITS st')
    - used_today ip (env_today env) (IP_LIMITS st)
  ∧ used_today ip (env_today env) (IP_LIMITS st)
    ≤ used_today ip (env_today env) (IP_LIMITS st').
Proof.
  intros st'. subst st'.
  destruct (nonempty (arg_v rq)) as [video_id|] eqn:Hv.
  - destruct (check_ip_limit (remote_addr rq) (env_today env) (IP_LIMITS st)).1
      eqn:Hok.
    + pose proof (check_ip_limit_used _ ip _ _ Hok) as Hu.
      rewrite (watch_admitted _ _ _ _ Hv Hok). cbv zeta.
      destruct (negb _).
      { cbn [snd set_limits IP_LIMITS SUBMITTED]. rewrite Hu.
        destruct (bool_decide (remote_addr rq = ip)); lia. }
      destruct (DOWNLOADS st !! _).
      { cbn [snd set_limits IP_LIMITS SUBMITTED]. rewrite Hu.
        destruct (bool_decide (remote_addr rq = ip)); lia. }
      cbn [snd set_limits IP_LIMITS SUBMITTED]. rewrite Hu, jobs_of_snoc.
      cbn [job_ip]. destruct (bool_decide (remote_addr rq = ip)); lia.
    + rewrite (watch_rate_limited _ _ _ _ Hv Hok). cbn [snd]. lia.
  - rewrite (watch_missing_v _ _ _ Hv). cbn [snd]. lia.
Qed.

Lemma serve_jobs_within_count ip today rqs : ∀ st,
  Forall (λ re : request * environment, env_today re.2 = today) rqs →
  Z.of_nat (length (jobs_of ip (SUBMITTED (serve rqs st).2)))
  - Z.of_nat (length (jobs_of ip (SUBMITTED st)))
  ≤ used_today ip today (IP_LIMITS (serve rqs st).2)
    - used_today ip today (IP_LIMITS st).
Proof.
  induction rqs as [|[rq env] rqs IH]; intros st Hday; [cbn; lia|].
  apply Forall_cons in Hday as [Henv Hrest]. cbn [snd] in Henv.
  rewrite serve_cons. cbn [snd].
  pose proof (IH (watch rq env st).2 Hrest) as Hrec.
  destruct (watch_jobs_within_count rq env st ip) as [Hstep _].
  cbv zeta in Hstep. rewrite Henv in Hstep. lia.
Qed.

Lemma used_today_in_range ip today limits :
  counts_in_range limits →
  0 ≤ used_today ip today limits ≤ MAX_DOWNLOADS_PER_DAY.
Proof.
  intros Hr. unfold used_today. destruct (limits !! ip) as [e|] eqn:He.
  - pose proof (Hr _ _ He). destruct (bool_decide _); unfold
      MAX_DOWNLOADS_PER_DAY in *; lia.
  - unfold MAX_DOWNLOADS_PER_DAY. lia.
Qed.

(** X12.  The quota bounds the jobs, not only the admissions.  Over any
    sequence of requests to [watch] made on one UTC day, by any clients in
    any order and with any parameters, the number of jobs handed to the
    executor for client [ip] is at most [MAX_DOWNLOADS_PER_DAY] minus what
    the client had already used that day: at most [MAX_DOWNLOADS_PER_DAY]
    in all for a client that starts the day. *)
Theorem jobs_per_client_per_day (rqs : list (request * environment))
    (st : state) (ip today : string) :
  Forall (λ re : request * environment, env_today re.2 = today) rqs →
  counts_in_range (IP_LIMITS st) →
  let new_jobs :=
    Z.of_nat (length (jobs_of ip (SUBMITTED (serve rqs st).2)))
    - Z.of_nat (length (jobs_of ip (SUBMITTED st))) in
  new_jobs ≤ MAX_DOWNLOADS_PER_DAY - used_today ip today (IP_LIMITS st)
  ∧ (fresh_day ip today (IP_LIMITS st) → new_jobs ≤ MAX_DOWNLOADS_PER_DAY).
Proof.
  intros Hday Hr new_jobs.
  pose proof (serve_jobs_within_count ip today rqs st Hday) as Hjobs.
  pose proof (serve_counts_in_range rqs st Hr) as Hr'.
  pose proof (used_today_in_range ip today _ Hr') as Hu'.
  pose proof (used_today_in_range ip today _ Hr) as Hu.
  subst new_jobs. split; [lia|]. intros _. lia.
Qed.

Lemma jobs_per_client_per_day_witness :
  Z.of_nat (length (jobs_of "10.0.0.1"
                      (SUBMITTED (serve (replicate 12 (request_a, env_a))
                                    initial_state).2)))
  - Z.of_nat (length (jobs_of "10.0.0.1" (SUBMITTED initial_state)))
  ≤ MAX_DOWNLOADS_PER_DAY.
Proof.
  refine (proj2 (jobs_per_client_per_day (replicate 12 (request_a, env_a))
                   initial_state "10.0.0.1" "2024-01-01" _ _) I).
  - apply Forall_replicate. reflexivity.
  - intros ip e He.
    change (IP_LIMITS initial_state) with (∅ : gmap string entry) in He.
    by rewrite lookup_empty in He.
Defined.

(** ** Timers over time *)

Lemma fire_due_frame t timers : ∀ st,
  IP_LIMITS (fire_due t timers st) = IP_LIMITS st
  ∧ TIMERS (fire_due t timers st) = TIMERS st
  ∧ SUBMITTED (fire_due t timers st) = SUBMITTED st.
Proof.
  induction timers as [|[due a] rest IH]; intros st; [done|].
  cbn [fire_due]. destruct (due <=? t); [|apply IH].
  destruct (IH (fire a st)) as (-> & -> & ->). by destruct a.
Qed.

Lemma due_by_later t1 t2 a timers :
  t1 ≤ t2 →
  due_by t2 a (filter (λ da, t1 < da.1) timers) || due_by t1 a timers
  = due_by t2 a timers.
Proof.
  intros Hle. unfold due_by.
  induction timers as [|[due b] rest IH]; [done|].
  cbn [existsb fst snd]. destruct (decide (t1 < due)) as [Hlt|Hge].
  - rewrite filter_cons_True by done. cbn [existsb fst snd].
    rewrite <- IH. rewrite (proj2 (Z.leb_gt due t1)) by lia.
    cbn [andb orb]. by rewrite orb_assoc.
  - rewrite filter_cons_False by done. rewrite <- IH.
    rewrite (proj2 (Z.leb_le due t1)), (proj2 (Z.leb_le due t2)) by lia.
    cbn [andb]. destruct (bool_decide (b = a)); cbn [orb];
      [by rewrite orb_true_r|done].
Qed.

(** X13.  Time composes.  Looking at the state at instant [t1] and then at
    a later instant [t2] gives the state at [t2]: every timer fires once,
    at its own instant, and in whatever order the due timers run the
    registry, the files and the timers still pending are the same. *)
Theorem advance_advance (t1 t2 : Z) (st : state) :
  t1 ≤ t2 → advance t2 (advance t1 st) = advance t2 st.
Proof.
  intros Hle.
  assert (∀ s, TIMERS (advance t1 s) = filter (λ da, t1 < da.1) (TIMERS s))
    as Htimers by done.
  unfold advance at 1 3.
  destruct (fire_due_frame t2 (TIMERS (advance t1 st)) (advance t1 st))
    as (-> & _ & ->).
  destruct (fire_due_frame t2 (TIMERS st) st) as (-> & _ & ->).
  assert (IP_LIMITS (advance t1 st) = IP_LIMITS st) as ->.
  { unfold advance. cbn [IP_LIMITS]. apply fire_due_frame. }
  assert (SUBMITTED (advance t1 st) = SUBMITTED st) as ->.
  { unfold advance. cbn [SUBMITTED]. apply fire_due_frame. }
  f_equal.
  - apply map_eq. intros k. rewrite !fire_due_downloads, advance_downloads.
    rewrite Htimers, <- (due_by_later t1 t2 (ExpireToken k) (TIMERS st) Hle).
    destruct (due_by t2 _ (filter _ _)); [done|]. cbn [orb].
    by destruct (due_by t1 _ _).
  - rewrite Htimers, list_filter_filter. apply list_filter_iff.
    intros [due a]. cbn. lia.
  - apply set_eq. intros path. rewrite !fire_due_files, advance_files.
    rewrite Htimers, <- (due_by_later t1 t2 (DeleteFile path) (TIMERS st) Hle).
    destruct (due_by t2 _ (filter _ _)), (due_by t1 _ _); cbn [orb];
      intuition congruence.
Qed.

Lemma advance_advance_witness :
  advance 1400 (advance 1300 (finish token_a "mp4" 1000 Completed state_a_file))
  = advance 1400 (finish token_a "mp4" 1000 Completed state_a_file).
Proof.
  apply advance_advance. vm_compute. discriminate.
Defined.

(** ** Where the output file goes *)

Lemma hex_digit_is_hex n : (n < 16)%N → is_hex_digit (hex_digit n) = true.
Proof.
  intros Hn. unfold is_hex_digit, hex_digit.
  destruct (n <? 10)%N eqn:Hlt.
  - apply N.ltb_lt in Hlt. rewrite N_ascii_embedding by lia.
    apply orb_true_iff. left. apply andb_true_iff.
    split; apply N.leb_le; lia.
  - apply N.ltb_ge in Hlt. rewrite N_ascii_embedding by lia.
    apply orb_true_iff. right. apply andb_true_iff.
    split; apply N.leb_le; lia.
Qed.

Lemma hexdigits_all_hex k n : all_chars is_hex_digit (hexdigits k n) = true.
Proof.
  induction k as [|k IH]; [done|]. cbn [hexdigits all_chars].
  rewrite IH, hex_digit_is_hex; [done|]. by apply N.mod_lt.
Qed.

(** A name that does not start with a slash is put under [DOWNLOAD_DIR]. *)
Lemma path_join_relative c s :
  c ≠ "/"%char →
  path_join DOWNLOAD_DIR (String c s) = DOWNLOAD_DIR +:+ "/" +:+ String c s.
Proof.
  intros Hc. unfold path_join.
  destruct c as [[] [] [] [] [] [] [] []]; done.
Qed.

(** X14.  Where the output file goes.  For an accepted submission without
    a token of the caller's, the token is 32 characters of [0-9a-f] and the
    output file is ["downloads/" + token + "." + fmt].  A token of the
    caller's is taken as it is, whatever it holds; when it starts with a
    slash, [os.path.join] drops the download directory and the output file
    is [token + "." + fmt], outside of it. *)
Theorem output_file_location (rq : request) (env : environment) (st : state)
    (token : string) :
  accepted_token (watch rq env st).1 = Some token →
  let fmt := lower (default "mp4" (arg_format rq)) in
  (nonempty (arg_token rq) = None →
     String.length token = 32%nat
     ∧ all_chars is_hex_digit token = true
     ∧ output_path token fmt = "downloads/" +:+ token +:+ "." +:+ fmt)
  ∧ (∀ t, nonempty (arg_token rq) = Some t →
       token = t
       ∧ ∀ rest, t = String "/" rest →
           output_path token fmt = t +:+ "." +:+ fmt).
Proof.
  intros Hacc fmt.
  destruct (watch_accepted _ _ _ _ Hacc)
    as (video_id & _ & _ & _ & Htok & _ & _ & _).
  split.
  - intros Hnone. rewrite Hnone in Htok. cbn [default] in Htok. subst token.
    split; [apply hexdigits_length|]. split; [apply hexdigits_all_hex|].
    unfold output_path, uuid4_hex.
    change (hexdigits 32 (uuid4_int (env_urandom env)))
      with (String (hex_digit (N.shiftr (uuid4_int (env_urandom env))
                                 (4 * N.of_nat 31) mod 16))
                   (hexdigits 31 (uuid4_int (env_urandom env)))).
    set (c := hex_digit _). set (s := hexdigits 31 _).
    change (String c s +:+ "." +:+ fmt) with (String c (s +:+ "." +:+ fmt)).
    rewrite path_join_relative; [done|].
    intros Hc. assert (is_hex_digit c = true) as Hhex.
    { apply hex_digit_is_hex. by apply N.mod_lt. }
    by rewrite Hc in Hhex.
  - intros t Ht. rewrite Ht in Htok. cbn [default] in Htok. subst token.
    split; [done|]. by intros rest ->.
Qed.

Lemma output_file_location_witness :
  accepted_token (watch request_absolute env_a initial_state).1
  = Some "/tmp/x"
  ∧ output_path "/tmp/x" "mp4" = "/tmp/x.mp4".
Proof.
  assert (accepted_token (watch request_absolute env_a initial_state).1
          = Some "/tmp/x") as Hacc by (vm_compute; reflexivity).
  split; [exact Hacc|].
  destruct (output_file_location request_absolute env_a initial_state
              "/tmp/x" Hacc) as [_ H].
  exact (proj2 (H "/tmp/x" eq_refl) "tmp/x" eq_refl).
Defined.

(** ** The waiting request *)

Lemma after_hooks_unfinished token evs : ∀ st i,
  DOWNLOADS st !! token = Some i →
  rank (info_status i) ≤ 2 →
  ∃ i', DOWNLOADS (after_hooks token evs st) !! token = Some i'
        ∧ rank (info_status i') ≤ 2.
Proof.
  induction evs as [|d evs IH]; intros st i Hi Hr; [by exists i|].
  rewrite after_hooks_cons.
  apply (IH _ (hook_update d i)); [|by apply hook_update_unfinished].
  cbn [set_downloads DOWNLOADS]. rewrite (progress_hook_live _ _ _ _ Hi).
  apply lookup_insert_eq.
Qed.

Lemma poll_unfinished token downloads i :
  downloads !! token = Some i →
  rank (info_status i) ≤ 2 →
  poll token downloads = None.
Proof.
  intros Hi Hr. unfold poll. rewrite Hi.
  destruct (info_status i); cbn in Hr; try lia; done.
Qed.

Lemma wait_app_none token seen rest :
  wait token seen = None → wait token (seen ++ rest) = wait token rest.
Proof.
  induction seen as [|D seen IH]; [done|].
  cbn [wait app]. destruct (poll token D); [done|]. apply IH.
Qed.

(** X15.  A request in not-json mode waits for its worker.  While the
    worker of a record that is not finished runs its progress hooks, every
    turn of the polling loop sleeps, whichever of the registries of the run
    the loop reads, however often and in whatever order; the first turn that
    reads the registry the worker leaves ends the request: with the output
    file after the engine has returned, with status 500 after it has
    raised. *)
Theorem waiting_request_ends_with_the_worker (j : job) (clock : Z)
    (run : engine_run) (st : state) (i : info)
    (seen later : list (gmap string info)) :
  DOWNLOADS st !! job_token j = Some i →
  rank (info_status i) ≤ 2 →
  Forall (λ D, ∃ k, D = DOWNLOADS (after_hooks (job_token j)
                                     (take k (run_events run)) st)) seen →
  wait (job_token j) seen = None
  ∧ wait (job_token j)
      (seen ++ DOWNLOADS (download_worker j clock run st) :: later)
    = Some (match run_result run with
            | Completed =>
                send_file (Some (output_path (job_token j) (job_fmt j)))
            | Raised _ => abort ServerError
            end).
Proof.
  intros Hi Hr Hseen.
  assert (wait (job_token j) seen = None) as Hnone.
  { induction Hseen as [|D seen [k ->] _ IH]; [done|].
    cbn [wait].
    destruct (after_hooks_unfinished (job_token j) (take k (run_events run))
                st i Hi Hr) as (i' & Hi' & Hr').
    by rewrite (poll_unfinished _ _ _ Hi' Hr'). }
  split; [done|].
  rewrite (wait_app_none _ _ _ Hnone). cbn [wait].
  destruct (download_worker_record j clock run st i Hi)
    as (i' & Hi' & _ & Hs & Hf & _).
  unfold poll. rewrite Hi', Hs, Hf.
  destruct (run_result run) as [|e]; cbn [final_status].
  - pose proof (output_path_nonempty (job_token j) (job_fmt j)) as Hne.
    cbn [nonempty].
    destruct (output_path (job_token j) (job_fmt j)); [done|done].
  - by destruct (nonempty (info_file i)).
Qed.

Lemma waiting_request_ends_with_the_worker_witness :
  wait token_a
    [DOWNLOADS state_a;
     DOWNLOADS (after_hooks token_a [event_downloading] state_a);
     DOWNLOADS state_a] = None
  ∧ wait token_a
      ([DOWNLOADS state_a;
        DOWNLOADS (after_hooks token_a [event_downloading] state_a);
        DOWNLOADS state_a]
       ++ DOWNLOADS (download_worker job_a 100 run_one_stream state_a) :: [])
    = Some (send_file (Some (output_path token_a "mp4"))).
Proof.
  apply (waiting_request_ends_with_the_worker job_a 100 run_one_stream state_a
           (new_info token_a "10.0.0.1" "abc123" "mp4" (env_now env_a))).
  - vm_compute. reflexivity.
  - vm_compute. discriminate.
  - repeat apply Forall_cons_2; [by exists 0%nat|by exists 1%nat
                                 |by exists 0%nat|apply Forall_nil_2].
Defined.

(** ** The two files side by side *)

Lemma same_answer_reject not_json code msg :
  same_outcome (reject not_json code msg)
    (CertbotRoutes.Responded (CertbotRoutes.abort code)).
Proof. by destruct not_json. Qed.

(** X16.  The HTTPS variant decides as [app.py] does.  On the same request,
    in the same environment and state, [watch] of either file leaves the
    same state (quota, registry and job given to the executor) and gives
    the same outcome: the same status code, the same token when the
    submission is accepted, the same choice between answering and waiting.
    [progress] and [download] answer with the same status code, the same
    file, and the same body apart from the ["error"] key, which the variant
    does not have. *)
Theorem https_routes_agree (rq : request) (env : environment) (st : state) :
  (CertbotRoutes.watch rq env st).2 = (watch rq env st).2
  ∧ same_outcome (watch rq env st).1 (CertbotRoutes.watch rq env st).1
  ∧ (∀ token ip now,
       same_answer (progress token ip now (DOWNLOADS st))
         (CertbotRoutes.progress token ip now (DOWNLOADS st)))
  ∧ (∀ token ip,
       same_answer (download token ip (DOWNLOADS st))
         (CertbotRoutes.download token ip (DOWNLOADS st))).
Proof.
  split; [|split; [|split]].
  - unfold watch, CertbotRoutes.watch.
    destruct (nonempty (arg_v rq)); [|done].
    destruct (check_ip_limit _ _ _) as [ok limits].
    destruct (negb ok); [done|].
    destruct (negb _); [done|].
    by destruct (DOWNLOADS (set_limits limits st) !! _).
  - unfold watch, CertbotRoutes.watch.
    destruct (nonempty (arg_v rq)); [|apply same_answer_reject].
    destruct (check_ip_limit _ _ _) as [ok limits].
    destruct (negb ok); [apply same_answer_reject|].
    destruct (negb _); [apply same_answer_reject|].
    destruct (DOWNLOADS (set_limits limits st) !! _);
      [apply same_answer_reject|].
    cbn [fst]. by destruct (arg_not_json rq).
  - intros token ip now. unfold progress, CertbotRoutes.progress.
    destruct (nonempty token); [|done].
    destruct (DOWNLOADS st !! _); [|done].
    by destruct (negb _).
  - intros token ip. unfold download, CertbotRoutes.download.
    destruct (nonempty token); [|done].
    destruct (DOWNLOADS st !! _); [|done].
    destruct (negb _); [done|].
    by destruct (negb _).
Qed.

(** X17.  On a token that is registered, the worker of the HTTPS variant
    does what the worker of [app.py] does.  It returns (no exception leaves
    it), it leaves the same registry, quota, executor queue and files, and
    after a completed run it has armed the same two timers with the
    variant's own delays, the file's before the token's; after a failed run
    it has armed none. *)
Theorem https_worker_on_registered_token (j : job) (clock : Z)
    (run : engine_run) (st : state) (i : info) :
  DOWNLOADS st !! job_token j = Some i →
  let st' := download_worker j clock run st in
  let r := Certbot.download_worker j clock run st in
  r.1 = Certbot.Returned
  ∧ DOWNLOADS r.2 = DOWNLOADS st'
  ∧ IP_LIMITS r.2 = IP_LIMITS st'
  ∧ SUBMITTED r.2 = SUBMITTED st'
  ∧ FILES r.2 = FILES st'
  ∧ TIMERS r.2
    = TIMERS st
      ++ match run_result run with
         | Completed =>
             [(clock + Certbot.FILE_DELETE_SECONDS,
               DeleteFile (output_path (job_token j) (job_fmt j)));
              (clock + Certbot.TOKEN_EXPIRE_SECONDS,
               ExpireToken (job_token j))]
         | Raised _ => []
         end.
Proof.
  intros Hi st' r. subst st' r.
  rewrite download_worker_eq, certbot_download_worker_eq.
  destruct (after_hooks_frame (job_token j) (run_events run) st)
    as (_ & Ht & _ & _ & _ & Hsome).
  destruct (Hsome (mk_is_Some _ _ Hi)) as [i' Hi'].
  unfold Certbot.finish, finish. rewrite Hi'.
  destruct (run_result run) as [|e]; cbn; rewrite ?Ht, ?app_nil_r;
    repeat split.
  by rewrite <- app_assoc.
Qed.

Lemma https_worker_on_registered_token_witness :
  (Certbot.download_worker job_a 100 run_one_stream state_a).1
  = Certbot.Returned
  ∧ TIMERS (Certbot.download_worker job_a 100 run_one_stream state_a).2
    = [(110, DeleteFile (output_path token_a "mp4"));
       (105, ExpireToken token_a)].
Proof.
  destruct (https_worker_on_registered_token job_a 100 run_one_stream state_a
              (new_info token_a "10.0.0.1" "abc123" "mp4" (env_now env_a)))
    as (H1 & _ & _ & _ & _ & H6).
  - vm_compute. reflexivity.
  - split; [exact H1|exact H6].
Defined.

(** X18.  The polling loop of the HTTPS variant.  Whenever the loop of
    [app.py] answers, the loop of the variant answers too, with the same
    status code and file; when the loop of [app.py] sleeps, the variant
    sleeps as well unless the record is done without a file: [app.py]
    polls again, the variant passes the missing file to [send_file]. *)
Theorem https_poll_agrees (token : string) (downloads : gmap string info) :
  match poll token downloads, CertbotRoutes.poll token downloads with
  | Some r, Some r' => same_answer r r'
  | None, None => True
  | None, Some r' =>
      ∃ i, downloads !! token = Some i
           ∧ info_status i = Done
           ∧ nonempty (info_file i) = None
           ∧ r' = CertbotRoutes.send_file (info_file i)
  | Some _, None => False
  end.
Proof.
  unfold poll, CertbotRoutes.poll.
  destruct (downloads !! token) as [i|] eqn:Hi; [|done].
  destruct (info_status i) eqn:Hs; try done.
  destruct (info_file i) as [[|c p]|] eqn:Hf; cbn [nonempty]; try done.
  - exists i. by rewrite Hf.
  - exists i. by rewrite Hf.
Qed.

(** ** Certificate setup: properties *)

Lemma cert_file_is_not_key_file : CERT_FILE ≠ KEY_FILE.
Proof. vm_compute. discriminate. Qed.

(** A new entry at a path that was free keeps every path that resolved
    resolving. *)
Lemma resolves_insert_fresh fs dst x : ∀ n path,
  fs !! dst = None →
  resolves n fs path = true →
  resolves n (<[dst := x]> fs) path = true.
Proof.
  induction n as [|n IH]; intros path Hfree Hres.
  - cbn [resolves] in *. destruct (decide (dst = path)) as [->|Hne].
    { by rewrite Hfree in Hres. }
    by rewrite lookup_insert_ne.
  - cbn [resolves] in *. destruct (decide (dst = path)) as [->|Hne].
    { by rewrite Hfree in Hres. }
    rewrite lookup_insert_ne; [|done].
    destruct (fs !! path) as [[|target]|]; [done| |done].
    by apply IH.
Qed.

Lemma ensure_certificates_succeeded h domain fs stdout stderr fs1 :
  os_path_exists fs CERT_FILE && os_path_exists fs KEY_FILE = false →
  subprocess_run h (certbot_command domain) fs
  = Some (0, stdout, stderr, fs1) →
  ensure_certificates h domain fs
  = let out :=
      [Printed ("[WARNING] Certificates not found for " +:+ domain
                +:+ ". Attempting to generate with certbot...");
       Ran (certbot_command domain);
       Printed "[INFO] Certbot succeeded. Certificates should be in /etc/letsencrypt/live/"] in
    match os_symlink (os_path_join (live_dir domain) "fullchain.pem")
            CERT_FILE fs1 with
    | None => Setup (Raises "FileExistsError") fs1 out
    | Some fs2 =>
        match os_symlink (os_path_join (live_dir domain) "privkey.pem")
                KEY_FILE fs2 with
        | None => Setup (Raises "FileExistsError") fs2 out
        | Some fs3 => Setup (Returns (CERT_FILE, KEY_FILE)) fs3 out
        end
    end.
Proof.
  intros Hmiss Hrun. unfold ensure_certificates. by rewrite Hmiss, Hrun.
Qed.

(** X19.  Certificates are installed once.  When a certificate file is
    missing and certbot exits with code 0, leaving both paths free,
    [ensure_certificates] returns the two paths, has linked each to the
    file of that name in the live directory of the domain, and has not
    asked the operator anything.  If the two live files exist, a second call
    on the file system it leaves finds the certificates: it returns the
    same paths, runs nothing and changes nothing. *)
Theorem ensure_certificates_installs_once (h h' : host) (domain : string)
    (fs fs1 : filesystem) (stdout stderr : string) :
  os_path_exists fs CERT_FILE && os_path_exists fs KEY_FILE = false →
  subprocess_run h (certbot_command domain) fs
  = Some (0, stdout, stderr, fs1) →
  fs1 !! CERT_FILE = None →
  fs1 !! KEY_FILE = None →
  let cert := os_path_join (live_dir domain) "fullchain.pem" in
  let key := os_path_join (live_dir domain) "privkey.pem" in
  let s := ensure_certificates h domain fs in
  setup_result_of s = Returns (CERT_FILE, KEY_FILE)
  ∧ setup_fs s
    = <[KEY_FILE := Symlink key]> (<[CERT_FILE := Symlink cert]> fs1)
  ∧ existsb is_prompt (setup_io s) = false
  ∧ (resolves (pred MAXSYMLINKS) fs1 cert = true →
     resolves (pred MAXSYMLINKS) fs1 key = true →
     ensure_certificates h' domain (setup_fs s)
     = Setup (Returns (CERT_FILE, KEY_FILE)) (setup_fs s)
         [Printed ("[INFO] Certificates found for " +:+ domain)]).
Proof.
  intros Hmiss Hrun Hc Hk cert key s. subst s.
  rewrite (ensure_certificates_succeeded _ _ _ _ _ _ Hmiss Hrun). cbv zeta.
  unfold os_symlink. rewrite Hc.
  rewrite lookup_insert_ne; [|apply cert_file_is_not_key_file].
  rewrite Hk. cbn [setup_result_of setup_fs setup_io].
  split; [done|]. split; [done|]. split; [done|].
  intros Hrc Hrk. fold cert key.
  set (fs3 := <[KEY_FILE := Symlink key]> (<[CERT_FILE := Symlink cert]> fs1)).
  assert (os_path_exists fs3 CERT_FILE = true) as Hec.
  { unfold os_path_exists.
    change MAXSYMLINKS with (S (pred MAXSYMLINKS)). cbn [resolves].
    unfold fs3. rewrite lookup_insert_ne; [|apply not_eq_sym,
                                             cert_file_is_not_key_file].
    rewrite lookup_insert_eq.
    apply resolves_insert_fresh.
    { rewrite lookup_insert_ne; [done|apply cert_file_is_not_key_file]. }
    by apply resolves_insert_fresh. }
  assert (os_path_exists fs3 KEY_FILE = true) as Hek.
  { unfold os_path_exists.
    change MAXSYMLINKS with (S (pred MAXSYMLINKS)). cbn [resolves].
    unfold fs3. rewrite lookup_insert_eq.
    apply resolves_insert_fresh.
    { rewrite lookup_insert_ne; [done|apply cert_file_is_not_key_file]. }
    by apply resolves_insert_fresh. }
  unfold ensure_certificates. by rewrite Hec, Hek.
Qed.

Lemma ensure_certificates_installs_once_witness :
  setup_result_of (ensure_certificates host_issuing DOMAIN ∅)
  = Returns (CERT_FILE, KEY_FILE)
  ∧ ensure_certificates host_idle DOMAIN
      (setup_fs (ensure_certificates host_issuing DOMAIN ∅))
    = Setup (Returns (CERT_FILE, KEY_FILE))
        (setup_fs (ensure_certificates host_issuing DOMAIN ∅))
        [Printed ("[INFO] Certificates found for " +:+ DOMAIN)].
Proof.
  destruct (ensure_certificates_installs_once host_issuing host_idle DOMAIN ∅
              (<[os_path_join (live_dir DOMAIN) "privkey.pem" := RegularFile]>
                 (<[os_path_join (live_dir DOMAIN) "fullchain.pem"
                    := RegularFile]> ∅))
              EmptyString EmptyString)
    as (H1 & _ & _ & H4).
  - vm_compute. reflexivity.
  - reflexivity.
  - vm_compute. reflexivity.
  - vm_compute. reflexivity.
  - split; [exact H1|]. apply H4; vm_compute; reflexivity.
Defined.

(** X20.  When the setup fails on an existing entry.  [ensure_certificates]
    raises [FileExistsError] exactly when a certificate file is missing,
    certbot exits with code 0, and one of the two paths is taken in the
    file system certbot leaves: by a file that was there while the other was
    missing, or by a link of an earlier run that leads nowhere.  The check
    follows links and [os.symlink] does not; nothing in the function
    catches the exception.  When the certificate's path is free and the
    key's is taken, the certificate has been linked before the exception
    is raised. *)
Theorem ensure_certificates_entry_in_the_way (h : host) (domain : string)
    (fs : filesystem) :
  (setup_result_of (ensure_certificates h domain fs) = Raises "FileExistsError"
   ↔ os_path_exists fs CERT_FILE && os_path_exists fs KEY_FILE = false
     ∧ ∃ stdout stderr fs1,
         subprocess_run h (certbot_command domain) fs
         = Some (0, stdout, stderr, fs1)
         ∧ (is_Some (fs1 !! CERT_FILE) ∨ is_Some (fs1 !! KEY_FILE)))
  ∧ (∀ stdout stderr fs1,
       os_path_exists fs CERT_FILE && os_path_exists fs KEY_FILE = false →
       subprocess_run h (certbot_command domain) fs
       = Some (0, stdout, stderr, fs1) →
       fs1 !! CERT_FILE = None →
       is_Some (fs1 !! KEY_FILE) →
       setup_fs (ensure_certificates h domain fs)
       = <[CERT_FILE := Symlink (os_path_join (live_dir domain)
                                   "fullchain.pem")]> fs1).
Proof.
  split; [split|].
  - unfold ensure_certificates.
    destruct (os_path_exists fs CERT_FILE && os_path_exists fs KEY_FILE)
      eqn:Hboth; [done|].
    destruct (subprocess_run h (certbot_command domain) fs)
      as [[[[rc stdout] stderr] fs1]|] eqn:Hrun.
    2:{ unfold prompt_and_return. by destruct (input_line _ _ _). }
    destruct (rc =? 0) eqn:Hrc; cbn [negb].
    2:{ unfold prompt_and_return. by destruct (input_line _ _ _). }
    apply Z.eqb_eq in Hrc as ->.
    intros Hres. split; [done|]. exists stdout, stderr, fs1. split; [done|].
    unfold os_symlink in Hres.
    destruct (fs1 !! CERT_FILE) eqn:Hc; [by left|].
    rewrite lookup_insert_ne in Hres; [|apply cert_file_is_not_key_file].
    destruct (fs1 !! KEY_FILE) eqn:Hk; [by right|done].
  - intros (Hmiss & stdout & stderr & fs1 & Hrun & Htaken).
    rewrite (ensure_certificates_succeeded _ _ _ _ _ _ Hmiss Hrun). cbv zeta.
    unfold os_symlink.
    destruct (fs1 !! CERT_FILE) eqn:Hc; [done|].
    rewrite lookup_insert_ne; [|apply cert_file_is_not_key_file].
    destruct Htaken as [[? ?]|[x Hx]]; [done|]. by rewrite Hx.
  - intros stdout stderr fs1 Hmiss Hrun Hc [x Hk].
    rewrite (ensure_certificates_succeeded _ _ _ _ _ _ Hmiss Hrun). cbv zeta.
    unfold os_symlink. rewrite Hc.
    rewrite lookup_insert_ne; [|apply cert_file_is_not_key_file].
    by rewrite Hk.
Qed.

Lemma ensure_certificates_entry_in_the_way_witness :
  setup_result_of (ensure_certificates host_idle DOMAIN fs_half)
  = Raises "FileExistsError".
Proof.
  apply (proj1 (ensure_certificates_entry_in_the_way host_idle DOMAIN fs_half)).
  split; [vm_compute; reflexivity|].
  exists EmptyString, EmptyString, fs_half. split; [reflexivity|].
  left. exists RegularFile. vm_compute. reflexivity.
Defined.

(** X21.  A failed setup is left to the operator.  When a certificate file
    is missing and certbot is not installed, or exits with another code
    than 0, [ensure_certificates] makes no link and asks the operator once
    to press Enter.  It then returns the two paths with the file system as
    it is at that moment, without looking at it again: the paths it returns
    need not exist.  At the end of the standard input, [input] raises
    [EOFError], which leaves the function. *)
Theorem ensure_certificates_failure_is_left_to_the_operator (h : host)
    (domain : string) (fs fs1 : filesystem) :
  os_path_exists fs CERT_FILE && os_path_exists fs KEY_FILE = false →
  (subprocess_run h (certbot_command domain) fs = None ∧ fs1 = fs)
  ∨ (∃ returncode stdout stderr,
       subprocess_run h (certbot_command domain) fs
       = Some (returncode, stdout, stderr, fs1) ∧ returncode ≠ 0) →
  let s := ensure_certificates h domain fs in
  ∃ prompt,
    List.filter is_prompt (setup_io s) = [Prompted prompt]
    ∧ List.filter is_run (setup_io s) = [Ran (certbot_command domain)]
    ∧ match input_line h prompt fs1 with
      | Some fs' =>
          setup_result_of s = Returns (CERT_FILE, KEY_FILE) ∧ setup_fs s = fs'
      | None => setup_result_of s = Raises "EOFError" ∧ setup_fs s = fs1
      end.
Proof.
  intros Hmiss Hrun s. subst s. unfold ensure_certificates. rewrite Hmiss.
  destruct Hrun as [[Hrun ->]|(rc & stdout & stderr & Hrun & Hrc)];
    rewrite Hrun.
  - exists "Press Enter to continue after installing certbot...".
    unfold prompt_and_return. by destruct (input_line _ _ _).
  - apply Z.eqb_neq in Hrc. rewrite Hrc. cbn [negb].
    exists "Please fix certificates manually and press Enter to continue...".
    unfold prompt_and_return. by destruct (input_line _ _ _).
Qed.

Lemma ensure_certificates_failure_is_left_to_the_operator_witness :
  setup_result_of (ensure_certificates host_absent DOMAIN ∅)
  = Returns (CERT_FILE, KEY_FILE)
  ∧ os_path_exists (setup_fs (ensure_certificates host_absent DOMAIN ∅))
      CERT_FILE = false.
Proof.
  destruct (ensure_certificates_failure_is_left_to_the_operator host_absent
              DOMAIN ∅ ∅) as (prompt & _ & _ & H).
  - vm_compute. reflexivity.
  - left. split; reflexivity.
  - cbn [input_line host_absent] in H. destruct H as [H1 H2].
    split; [exact H1|]. rewrite H2. vm_compute. reflexivity.
Defined.

(** ** Workers side by side: properties *)

Lemma update_record_commute t1 t2 f1 f2 downloads :
  t1 ≠ t2 →
  update_record t1 f1 (update_record t2 f2 downloads)
  = update_record t2 f2 (update_record t1 f1 downloads).
Proof.
  intros Hne. unfold update_record.
  destruct (downloads !! t1) as [i1|] eqn:H1;
    destruct (downloads !! t2) as [i2|] eqn:H2;
    rewrite ?lookup_insert_ne, ?H1, ?H2 by done; [|done..].
  by apply insert_insert_ne.
Qed.

Lemma worker_step_eq token fmt clock s st :
  worker_step token fmt clock s st
  = State (update_record token (step_update fmt token s) (DOWNLOADS st))
          (IP_LIMITS st) (TIMERS st ++ step_timers token fmt clock s)
          (SUBMITTED st) (FILES st).
Proof.
  destruct st as [D L T S F]. destruct s as [d|[|e]].
  - cbn. by rewrite app_nil_r.
  - unfold worker_step, finish, schedule_delete, schedule_token_expire,
      set_downloads. cbn [DOWNLOADS IP_LIMITS TIMERS SUBMITTED FILES].
    by rewrite <- app_assoc.
  - cbn. by rewrite app_nil_r.
Qed.

Lemma worker_step_proper token fmt clock s st st' :
  same_but_timer_order st st' →
  same_but_timer_order (worker_step token fmt clock s st)
    (worker_step token fmt clock s st').
Proof.
  intros (HD & HL & HT & HS & HF). rewrite !worker_step_eq.
  unfold same_but_timer_order. cbn. rewrite HD, HL, HS, HF.
  repeat split. by rewrite HT.
Qed.

Lemma worker_step_commute t1 f1 c1 s1 t2 f2 c2 s2 st :
  t1 ≠ t2 →
  same_but_timer_order
    (worker_step t1 f1 c1 s1 (worker_step t2 f2 c2 s2 st))
    (worker_step t2 f2 c2 s2 (worker_step t1 f1 c1 s1 st)).
Proof.
  intros Hne. rewrite !worker_step_eq. unfold same_but_timer_order. cbn.
  repeat split.
  - by apply update_record_commute.
  - rewrite <- !app_assoc. apply Permutation_app_head, Permutation_app_comm.
Qed.

Lemma same_but_timer_order_refl st : same_but_timer_order st st.
Proof. by repeat split. Qed.

Lemma same_but_timer_order_trans st1 st2 st3 :
  same_but_timer_order st1 st2 → same_but_timer_order st2 st3 →
  same_but_timer_order st1 st3.
Proof.
  intros (? & ? & HT & ? & ?) (? & ? & HT' & ? & ?).
  repeat split; try congruence. by rewrite HT.
Qed.

Lemma run_steps_proper j clock steps : ∀ st st',
  same_but_timer_order st st' →
  same_but_timer_order (run_steps j clock steps st)
    (run_steps j clock steps st').
Proof.
  induction steps as [|s steps IH]; intros st st' H; [done|].
  apply IH. by apply worker_step_proper.
Qed.

(** A step of one worker can be moved behind the steps of another. *)
Lemma run_steps_commute j1 c1 l1 t2 f2 c2 s2 : ∀ st,
  job_token j1 ≠ t2 →
  same_but_timer_order
    (run_steps j1 c1 l1 (worker_step t2 f2 c2 s2 st))
    (worker_step t2 f2 c2 s2 (run_steps j1 c1 l1 st)).
Proof.
  induction l1 as [|s l1 IH]; intros st Hne;
    [apply same_but_timer_order_refl|].
  change (run_steps j1 c1 (s :: l1) ?x)
    with (run_steps j1 c1 l1 (worker_step (job_token j1) (job_fmt j1) c1 s x)).
  eapply same_but_timer_order_trans; [|by apply IH].
  apply run_steps_proper, worker_step_commute. done.
Qed.

Lemma scheduled_sequential sched j1 c1 j2 c2 : ∀ l1 l2 st,
  job_token j1 ≠ job_token j2 →
  same_but_timer_order (scheduled sched j1 c1 l1 j2 c2 l2 st)
    (run_steps j2 c2 l2 (run_steps j1 c1 l1 st)).
Proof.
  induction sched as [|b sched IH]; intros l1 l2 st Hne.
  { destruct l1, l2; apply same_but_timer_order_refl. }
  destruct b.
  - destruct l1 as [|s l1]; [destruct l2; apply same_but_timer_order_refl|].
    cbn [scheduled].
    change (run_steps j1 c1 (s :: l1) st)
      with (run_steps j1 c1 l1
              (worker_step (job_token j1) (job_fmt j1) c1 s st)).
    by apply IH.
  - destruct l2 as [|s l2]; [destruct l1; apply same_but_timer_order_refl|].
    assert (scheduled (false :: sched) j1 c1 l1 j2 c2 (s :: l2) st
            = scheduled sched j1 c1 l1 j2 c2 l2
                (worker_step (job_token j2) (job_fmt j2) c2 s st)) as ->.
    { by destruct l1. }
    eapply same_but_timer_order_trans; [by apply IH|].
    change (run_steps j2 c2 (s :: l2) ?x)
      with (run_steps j2 c2 l2
              (worker_step (job_token j2) (job_fmt j2) c2 s x)).
    apply run_steps_proper, run_steps_commute. done.
Qed.

Lemma due_by_permutation t a l l' : l ≡ₚ l' → due_by t a l = due_by t a l'.
Proof.
  unfold due_by. induction 1 as [|x l l' _ IH|x y l|l l' l'' _ IH1 _ IH2].
  - done.
  - cbn [existsb]. by rewrite IH.
  - cbn [existsb]. rewrite !orb_assoc. f_equal. apply orb_comm.
  - by rewrite IH1.
Qed.

(** X22.  Workers of different tokens do not disturb one another.
    Whatever the order in which the executor's threads take the lock, two
    workers with different tokens leave the state that they leave when one
    runs after the other: the same registry, quota, queue and files, and the
    same timers up to the order in which they were started; and at every
    later instant the registry and the files are the same. *)
Theorem concurrent_workers_do_not_interfere (sched : list bool)
    (j1 j2 : job) (c1 c2 : Z) (run1 run2 : engine_run) (st : state) :
  job_token j1 ≠ job_token j2 →
  let together :=
    scheduled sched j1 c1 (worker_steps run1) j2 c2 (worker_steps run2) st in
  let in_turn := download_worker j2 c2 run2 (download_worker j1 c1 run1 st) in
  same_but_timer_order together in_turn
  ∧ ∀ t, DOWNLOADS (advance t together) = DOWNLOADS (advance t in_turn)
         ∧ FILES (advance t together) = FILES (advance t in_turn).
Proof.
  intros Hne together in_turn.
  assert (same_but_timer_order together in_turn) as Hsame.
  { by apply scheduled_sequential. }
  split; [done|]. destruct Hsame as (HD & _ & HT & _ & HF). intros t. split.
  - apply map_eq. intros token. rewrite !advance_downloads.
    by rewrite (due_by_permutation _ _ _ _ HT), HD.
  - apply set_eq. intros path. rewrite !advance_files.
    by rewrite (due_by_permutation _ _ _ _ HT), HF.
Qed.

Lemma concurrent_workers_do_not_interfere_witness :
  DOWNLOADS (scheduled [false; true; false; true] job_a 100
               (worker_steps run_one_stream) job_b 90
               (worker_steps run_failure) state_ab)
  = DOWNLOADS (download_worker job_b 90 run_failure
                 (download_worker job_a 100 run_one_stream state_ab)).
Proof.
  refine (proj1 (proj1 (concurrent_workers_do_not_interfere
                          [false; true; false; true] job_a job_b 100 90
                          run_one_stream run_failure state_ab _))).
  vm_compute. discriminate.
Defined.

(** ** The program as a whole: properties *)

Lemma update_record_is_Some token f downloads k :
  is_Some (update_record token f downloads !! k) ↔ is_Some (downloads !! k).
Proof.
  unfold update_record. destruct (downloads !! token) as [i|] eqn:Hi; [|done].
  destruct (decide (token = k)) as [<-|Hne].
  - rewrite lookup_insert_eq, Hi. split; eauto.
  - by rewrite lookup_insert_ne.
Qed.

Lemma certbot_watch_state rq env st :
  (CertbotRoutes.watch rq env st).2 = (watch rq env st).2.
Proof.
  unfold watch, CertbotRoutes.watch.
  destruct (nonempty (arg_v rq)); [|done].
  destruct (check_ip_limit _ _ _) as [ok limits].
  destruct (negb ok); [done|].
  destruct (negb _); [done|].
  by destruct (DOWNLOADS (set_limits limits st) !! _).
Qed.

(** What [watch] does to the registry and to the executor's queue: nothing,
    or one new record under a token that was free and one new job. *)
Lemma watch_effect rq env st :
  TIMERS (watch rq env st).2 = TIMERS st
  ∧ FILES (watch rq env st).2 = FILES st
  ∧ ((DOWNLOADS (watch rq env st).2 = DOWNLOADS st
      ∧ SUBMITTED (watch rq env st).2 = SUBMITTED st)
     ∨ ∃ j i, DOWNLOADS st !! job_token j = None
              ∧ DOWNLOADS (watch rq env st).2
                = <[job_token j := i]> (DOWNLOADS st)
              ∧ SUBMITTED (watch rq env st).2 = SUBMITTED st ++ [j]).
Proof.
  unfold watch.
  destruct (nonempty (arg_v rq)) as [video_id|]; [|by auto].
  destruct (check_ip_limit _ _ _) as [ok limits].
  destruct (negb ok); [by auto|].
  destruct (negb _); [by auto|].
  destruct (DOWNLOADS (set_limits limits st) !! _) eqn:Hfree; [by auto|].
  cbn [snd TIMERS FILES DOWNLOADS SUBMITTED set_limits] in *.
  split; [done|]. split; [done|]. right.
  by eexists (Job _ _ _ _ _ _), _.
Qed.

Lemma variant_finish_registered v token fmt clock r st :
  is_Some (DOWNLOADS st !! token) →
  (variant_finish v token fmt clock r st).1 = Certbot.Returned
  ∧ expiring (TIMERS (variant_finish v token fmt clock r st).2)
    = expiring (TIMERS st)
      ++ match r with Completed => [token] | Raised _ => [] end
  ∧ ∀ k, is_Some (DOWNLOADS (variant_finish v token fmt clock r st).2 !! k)
         ↔ is_Some (DOWNLOADS st !! k).
Proof.
  intros [i Hi]. unfold variant_finish, Certbot.finish, expiring.
  destruct v; [|rewrite Hi]; destruct r as [|e]; cbn [fst snd];
    unfold finish, schedule_delete, schedule_token_expire, set_downloads;
    cbn [TIMERS DOWNLOADS]; rewrite ?omap_app, ?app_nil_r;
    (split; [done|]); (split; [by rewrite <- ?app_assoc|]); intros k.
  - apply (update_record_is_Some token _ (DOWNLOADS st) k).
  - apply (update_record_is_Some token _ (DOWNLOADS st) k).
  - apply (update_record_is_Some token _ (DOWNLOADS st) k).
  - apply (update_record_is_Some token _ (DOWNLOADS st) k).
Qed.

Lemma submit_accounted v rq env run sys :
  tokens_accounted sys → tokens_accounted (submit v rq env run sys).
Proof.
  intros (Hnd & Hreg & Hexit). unfold tokens_accounted, submit.
  cbn [sys_state sys_workers sys_exits].
  assert (variant_watch v rq env (sys_state sys)
          = (watch rq env (sys_state sys)).2) as ->.
  { destruct v; [done|apply certbot_watch_state]. }
  destruct (watch_effect rq env (sys_state sys))
    as (-> & _ & [[HD ->]|(j & i & Hfree & HD & ->)]).
  - rewrite drop_all, app_nil_r, HD. done.
  - rewrite drop_app_length. unfold running. rewrite fmap_app. cbn [fmap list_fmap].
    fold (running (sys_workers sys)).
    set (tokens := running (sys_workers sys)
                   ++ expiring (TIMERS (sys_state sys))) in *.
    assert ((running (sys_workers sys) ++ [job_token j])
            ++ expiring (TIMERS (sys_state sys))
            ≡ₚ job_token j :: tokens) as ->.
    { unfold tokens. rewrite <- app_assoc.
      by rewrite (Permutation_app_comm [job_token j]), app_assoc,
        <- Permutation_cons_append. }
    split; [|split; [|done]].
    + apply NoDup_cons. split; [|done]. intros Hin.
      rewrite Forall_forall in Hreg. destruct (Hreg _ Hin) as [x Hx].
      by rewrite Hfree in Hx.
    + rewrite HD. apply Forall_cons. split.
      { rewrite lookup_insert_eq. eauto. }
      eapply Forall_impl; [exact Hreg|]. intros token Htoken.
      apply lookup_insert_is_Some'. by right.
Qed.

Lemma work_accounted v k sys :
  tokens_accounted sys → tokens_accounted (work v k sys).
Proof.
  intros (Hnd & Hreg & Hexit). unfold work.
  destruct (sys_workers sys !! k) as [w|] eqn:Hw; [|done].
  destruct (worker_events w) as [|d evs].
  - assert (running (sys_workers sys) ++ expiring (TIMERS (sys_state sys))
            ≡ₚ job_token (worker_job w)
               :: running (delete k (sys_workers sys))
                  ++ expiring (TIMERS (sys_state sys))) as Hperm.
    { unfold running. by rewrite (delete_Permutation _ _ _ Hw) at 1. }
    rewrite Hperm in Hnd, Hreg.
    apply NoDup_cons in Hnd as [Hfresh Hnd].
    apply Forall_cons in Hreg as [Hmine Hreg].
    set (st := match worker_result w with
               | Completed => engine_writes _ (sys_state sys)
               | Raised _ => sys_state sys
               end).
    assert (DOWNLOADS st = DOWNLOADS (sys_state sys)
            ∧ TIMERS st = TIMERS (sys_state sys)) as [HD HT].
    { unfold st. by destruct (worker_result w). }
    destruct (variant_finish_registered v (job_token (worker_job w))
                (job_fmt (worker_job w)) (sys_now sys) (worker_result w) st)
      as (Hret & Hexp & Hsame); [by rewrite HD|].
    unfold tokens_accounted. cbn [sys_state sys_workers sys_exits].
    rewrite Hexp, HT. split; [|split].
    + destruct (worker_result w); [|by rewrite app_nil_r].
      rewrite app_assoc, <- Permutation_cons_append.
      by apply NoDup_cons.
    + assert (Forall (λ token, is_Some
                (DOWNLOADS (variant_finish v (job_token (worker_job w))
                              (job_fmt (worker_job w)) (sys_now sys)
                              (worker_result w) st).2 !! token))
                (job_token (worker_job w)
                 :: running (delete k (sys_workers sys))
                    ++ expiring (TIMERS (sys_state sys)))) as Hall.
      { apply Forall_cons. split; [apply Hsame; by rewrite HD|].
        eapply Forall_impl; [exact Hreg|]. intros token Htoken.
        apply Hsame. by rewrite HD. }
      destruct (worker_result w).
      * by rewrite app_assoc, <- Permutation_cons_append.
      * rewrite app_nil_r. by apply Forall_cons in Hall as [_ Hall].
    + apply Forall_app. split; [done|]. by apply Forall_singleton.
  - unfold tokens_accounted. cbn [sys_state sys_workers sys_exits].
    assert (running (<[k := Worker (worker_job w) evs (worker_result w)]>
                       (sys_workers sys))
            = running (sys_workers sys)) as ->.
    { unfold running. rewrite list_fmap_insert. apply list_insert_id.
      by rewrite list_lookup_fmap, Hw. }
    cbn [set_downloads TIMERS DOWNLOADS]. split; [done|]. split; [|done].
    eapply Forall_impl; [exact Hreg|]. intros token Htoken.
    by apply (update_record_is_Some (job_token (worker_job w)) (hook_update d)
                (DOWNLOADS (sys_state sys)) token).
Qed.

Lemma wake_accounted k sys :
  tokens_accounted sys → tokens_accounted (wake k sys).
Proof.
  intros (Hnd & Hreg & Hexit). unfold wake.
  destruct (TIMERS (sys_state sys) !! k) as [[due a]|] eqn:Hk; [|done].
  destruct (due <=? sys_now sys); [|done].
  unfold tokens_accounted. cbn [sys_state sys_workers sys_exits TIMERS DOWNLOADS].
  assert (expiring (TIMERS (sys_state sys))
          ≡ₚ expiring ((due, a) :: delete k (TIMERS (sys_state sys))))
    as Hperm.
  { unfold expiring. by rewrite <- (delete_Permutation _ _ _ Hk). }
  rewrite Hperm in Hnd, Hreg.
  destruct a as [token|path]; cbn [fire set_downloads TIMERS DOWNLOADS].
  - unfold expiring in Hnd, Hreg. cbn [omap list_omap expiry_of snd] in Hnd, Hreg.
    fold (expiring (delete k (TIMERS (sys_state sys)))) in Hnd, Hreg.
    rewrite <- Permutation_middle in Hnd, Hreg.
    apply NoDup_cons in Hnd as [Hfresh Hnd].
    apply Forall_cons in Hreg as [_ Hreg].
    split; [done|]. split; [|done].
    rewrite Forall_forall in Hreg |- *. intros token' Hin.
    rewrite lookup_delete_ne; [by apply Hreg|].
    intros ->. by apply Hfresh.
  - by unfold expiring in *.
Qed.

Lemma run_system_accounted v acts : ∀ sys,
  tokens_accounted sys → tokens_accounted (run_system v acts sys).
Proof.
  induction acts as [|a acts IH]; intros sys Hsys; [done|].
  apply IH. destruct a as [rq env run|k|t|k].
  - by apply submit_accounted.
  - by apply work_accounted.
  - done.
  - by apply wake_accounted.
Qed.

(** C4.  A write to the record of a token that is out of the registry is a
    no-op, and no worker ends with an error because its token is gone.  In
    [app.py] every write is guarded: on any state without the token, a
    progress hook changes nothing at all and the final write, after success
    or after failure, leaves the registry as it is; the hook of the HTTPS
    variant is the same function.  The final write of the HTTPS variant is
    not guarded, and it never meets a token that is gone: in every
    configuration that either program reaches, whatever the requests, the
    engines and the order of the threads, the token of every worker that
    has not ended is registered, and every worker that has ended has
    returned. *)
Theorem purged_token_mutation_is_harmless :
  (∀ token fmt clock d r st,
     DOWNLOADS st !! token = None →
     set_downloads (progress_hook token d) st = st
     ∧ DOWNLOADS (finish token fmt clock r st) = DOWNLOADS st)
  ∧ (∀ v acts,
       Forall (λ w, is_Some (DOWNLOADS (sys_state
                                          (run_system v acts initial_system))
                             !! job_token (worker_job w)))
              (sys_workers (run_system v acts initial_system))
       ∧ Forall (λ e, e = Certbot.Returned)
                (sys_exits (run_system v acts initial_system))).
Proof.
  split; [apply purged_token_writes_are_noops|]. intros v acts.
  destruct (run_system_accounted v acts initial_system) as (_ & Hreg & Hexit).
  { repeat split; [apply NoDup_nil_2|apply Forall_nil_2..]. }
  split; [|done].
  apply Forall_app in Hreg as [Hreg _]. unfold running in Hreg.
  by rewrite Forall_fmap in Hreg.
Qed.

Lemma purged_token_mutation_is_harmless_witness :
  Forall (λ e, e = Certbot.Returned)
         (sys_exits (run_system Https reuse_of_a_token initial_system))
  ∧ length (sys_exits (run_system Https reuse_of_a_token initial_system))
    = 1%nat.
Proof.
  split; [|vm_compute; reflexivity].
  exact (proj2 (proj2 purged_token_mutation_is_harmless Https
                  reuse_of_a_token)).
Defined.
